(** * Intrusive double linked lists of µOS++ (utils-lists-xpack)

    A shallow embedding of [src/lists.cpp] and of the declarations of
    [include/micro-os-plus/utils/lists.h].

    Memory is a finite map from addresses to link nodes; a node is the
    pair of raw pointers [previous_] / [next_]; [nullptr] is address 0.
    Member functions become computations in a small state-and-error
    monad: a computation either finishes with a value and a new memory,
    stops on a failed [assert] (checked builds only), or is undefined
    (it dereferenced [nullptr] or an address that holds no node). *)

From stdpp Require Import gmap list.
From Stdlib Require Import ZArith Lia.

Local Open Scope Z_scope.
#[local] Set Warnings "-clear-no-such-hyp".

(** ** Memory *)

Definition nullptr : Z := 0.

(** [double_list_links_base]: the two pointer members. *)
Record links : Type := Links { previous_ : Z; next_ : Z }.

Abbreviation heap := (gmap Z links).

(** ** The monad of member functions *)

Inductive outcome (A : Type) : Type :=
| Done (a : A) (h : heap)
| AssertionFailed
| Undefined.
Arguments Done {A} a h.
Arguments AssertionFailed {A}.
Arguments Undefined {A}.

Definition M (A : Type) : Type := heap → outcome A.

Global Instance M_ret : MRet M := λ A a h, Done a h.

Global Instance M_bind : MBind M := λ A B f m h,
  match m h with
  | Done a h' => f a h'
  | AssertionFailed => AssertionFailed
  | Undefined => Undefined
  end.

(** [if (b) { c }] *)
Definition when (b : bool) (c : M unit) : M unit := if b then c else mret ().

(** Reading and writing the node stored at [p]. *)
Definition load (p : Z) : M links := λ h,
  if decide (p = nullptr) then Undefined
  else match h !! p with
       | Some l => Done l h
       | None => Undefined
       end.

Definition store (p : Z) (l : links) : M unit := λ h,
  if decide (p = nullptr) then Undefined
  else match h !! p with
       | Some _ => Done () (<[p := l]> h)
       | None => Undefined
       end.

(** ** The link node: [static_double_list_links] *)

Module static_double_list_links.
Section WithBuild.
(** [checked = true] is a build with [assert] enabled. *)
Variable checked : bool.

Definition assert (c : bool) : M unit := λ h,
  if checked && negb c then AssertionFailed else Done () h.

(** Modelled from the spec: the inline accessors and setters
    [next()], [previous()], [next(n)], [previous(n)] of the node
    (declared in lists.h, defined in the absent inlines.h): they
    read, respectively overwrite, one pointer of [this]. *)
Definition next (this : Z) : M Z := l ← load this; mret (next_ l).
Definition previous (this : Z) : M Z := l ← load this; mret (previous_ l).
Definition set_next (this n : Z) : M unit :=
  l ← load this; store this (Links (previous_ l) n).
Definition set_previous (this n : Z) : M unit :=
  l ← load this; store this (Links n (next_ l)).

(** Modelled from the spec: the node's [clear()] (named [nullify()]
    in lists.h), absent from the sources; "Nullify both pointers in
    the unlinked node", "Reset the two pointers to null". *)
Definition clear (this : Z) : M unit :=
  set_next this nullptr;; set_previous this nullptr.

(** [static_double_list_links::linked], lists.cpp:54. *)
Definition linked (this : Z) : M bool :=
  n ← next this;
  p ← previous this;
  if bool_decide (n ≠ nullptr) && bool_decide (p ≠ nullptr) then mret true
  else
    n ← next this;
    assert (bool_decide (n = nullptr));;
    p ← previous this;
    assert (bool_decide (p = nullptr));;
    mret false.

(** [static_double_list_links::unlink], lists.cpp:74. *)
Definition unlink (this : Z) : M unit :=
  l ← linked this;
  if negb l then
    n ← next this;
    assert (bool_decide (n = nullptr));;
    p ← previous this;
    assert (bool_decide (p = nullptr));;
    mret ()
  else
    (* previous_->next_ = next_; *)
    p ← previous this;
    n ← next this;
    set_next p n;;
    (* next_->previous_ = previous_; *)
    n ← next this;
    p ← previous this;
    set_previous n p;;
    clear this.
End WithBuild.
End static_double_list_links.

(** ** The statically allocated list: [static_double_list]

    A list object holds exactly its head node [head_]; it is
    identified with the address [hd] of that node. Iterators are node
    addresses. *)

Module static_double_list.
Import static_double_list_links.
Section WithBuild.
Variable checked : bool.

(** Modelled from the spec: [uninitialized()], absent from the
    sources; "true iff both pointers are null": the head is still
    in its zero-filled state. *)
Definition uninitialized (hd : Z) : M bool :=
  p ← previous hd;
  n ← next hd;
  mret (bool_decide (p = nullptr) && bool_decide (n = nullptr)).

(** Modelled from the spec: [head()] and [tail()], absent from the
    sources; "direct pointer accessors to the extremal elements (or
    to the sentinel when empty)". *)
Definition head (hd : Z) : M Z := next hd.
Definition tail (hd : Z) : M Z := previous hd.

(** [static_double_list::clear], lists.cpp:122. *)
Definition clear (hd : Z) : M unit :=
  set_next hd hd;; set_previous hd hd.

(** [static_double_list::empty], lists.cpp:132. *)
Definition empty (hd : Z) : M bool :=
  n ← next hd;
  if bool_decide (n = hd) then mret true else uninitialized hd.

(** [static_double_list::begin], lists.cpp:139. *)
Definition begin (hd : Z) : M Z :=
  u ← uninitialized hd;
  when u (clear hd);;
  next hd.

(** [static_double_list::end], lists.cpp:151. *)
Definition end_ (hd : Z) : M Z := mret hd.

(** [static_double_list::insert_after], lists.cpp:172. *)
Definition insert_after (node after : Z) : M unit :=
  p ← previous node;
  assert checked (bool_decide (p = nullptr));;
  n ← next node;
  assert checked (bool_decide (n = nullptr));;
  an ← next after;
  assert checked (bool_decide (an ≠ nullptr));;
  set_previous node after;;
  an ← next after;
  set_next node an;;
  an ← next after;
  set_previous an node;;
  set_next after node.

(** [static_double_list::link], lists.cpp:159. *)
Definition link (hd node : Z) : M unit :=
  u ← uninitialized hd;
  when u (clear hd);;
  t ← tail hd;
  insert_after node t.

(** Modelled from the spec: the iterator's [operator++] and
    [operator!=], absent from the sources; "Increment follows
    next()", "Equality compares underlying node pointers only".
    [iterate] is the loop that visits the node under [it] and
    increments [it] while [it != end],
    bounded by [fuel]; [None] reports that the fuel ran out. *)
Fixpoint iterate (fuel : nat) (end_it it : Z) : M (option (list Z)) :=
  if bool_decide (it = end_it) then mret (Some [])
  else match fuel with
       | O => mret None
       | S fuel' =>
           it' ← next it;
           r ← iterate fuel' end_it it';
           mret (cons it <$> r)
       end.

(** A full iteration [for (it = begin (); it != end (); ++it)]. *)
Definition traverse (fuel : nat) (hd : Z) : M (option (list Z)) :=
  b ← begin hd;
  e ← end_ hd;
  iterate fuel e b.
End WithBuild.
End static_double_list.

(** ** The dynamic list: [double_list] *)

Module double_list.
Import static_double_list_links.
Section WithBuild.
Variable checked : bool.

(** [double_list] derives from [static_double_list]: lists.cpp
    defines no [clear], [empty], [tail] or [insert_after] of its own,
    so the calls in its constructor, destructor and [link] reach the
    inherited members, [static_double_list::clear] (lists.cpp:122),
    [static_double_list::empty] (lists.cpp:132) and the [tail ()] of
    the static list. *)
Definition clear (hd : Z) : M unit := static_double_list.clear hd.
Definition empty (hd : Z) : M bool := static_double_list.empty hd.
Definition tail (hd : Z) : M Z := static_double_list.tail hd.

(** [double_list::double_list], lists.cpp:204. The storage of the
    object exists before the constructor runs, with any content. *)
Definition constructor (hd : Z) : M unit := clear hd.

(** [double_list::~double_list], lists.cpp:218. *)
Definition destructor (hd : Z) : M unit :=
  e ← empty hd; assert checked e.

(** [double_list::link], lists.cpp:228. *)
Definition link (hd node : Z) : M unit :=
  t ← tail hd;
  static_double_list.insert_after checked node t.
End WithBuild.
End double_list.

(** ** The intrusive adaptor: [intrusive_list] over a static head *)

Module intrusive_list.
Import static_double_list_links.
Section WithMember.
Variable checked : bool.
(** The offset of the member [MP] inside the owning type [T]. *)
Variable offset : Z.

(** The address of the links member of the object at [object]. *)
Definition member (object : Z) : Z := object + offset.

(** Modelled from the spec: [intrusive_list::get_pointer], declared
    at lists.h:1074 and defined in the absent inlines.h; "compute
    the address of the object by subtracting the offset from the
    address of the member storing the pointers". *)
Definition get_pointer (node : Z) : Z := node - offset.

(** Modelled from the spec: [link_tail], absent from the sources;
    "locate the embedded link field inside ownerRef and delegate to
    the underlying container". *)
Definition link_tail (hd object : Z) : M unit :=
  static_double_list.link checked hd (member object).

(** Modelled from the spec: [begin()] and the iterator's
    [operator*], absent from the sources; "iterators whose
    dereference yields owning-object references". *)
Definition begin (hd : Z) : M Z := static_double_list.begin hd.
Definition dereference (it : Z) : Z := get_pointer it.

(** Modelled from the spec: [unlink_head] and [unlink_tail], absent
    from the sources; "remove the first/last owning object,
    returning a pointer to it (or a null/empty result if the list
    was empty)". *)
Definition unlink_head (hd : Z) : M Z :=
  e ← static_double_list.empty hd;
  if (e : bool) then mret nullptr
  else
    n ← static_double_list.head hd;
    unlink checked n;;
    mret (get_pointer n).
Definition unlink_tail (hd : Z) : M Z :=
  e ← static_double_list.empty hd;
  if (e : bool) then mret nullptr
  else
    n ← static_double_list.tail hd;
    unlink checked n;;
    mret (get_pointer n).
End WithMember.
End intrusive_list.

(** ** Programs over one static list *)

Inductive operation : Type :=
| OpLink (node : Z)      (* list.link (node) *)
| OpUnlink (node : Z)    (* node.unlink () *)
| OpBegin                (* list.begin () *)
| OpEmpty.               (* list.empty () *)

Definition step (checked : bool) (hd : Z) (o : operation) : M unit :=
  match o with
  | OpLink n => static_double_list.link checked hd n
  | OpUnlink n => static_double_list_links.unlink checked n
  | OpBegin => static_double_list.begin hd;; mret ()
  | OpEmpty => static_double_list.empty hd;; mret ()
  end.

Fixpoint run (checked : bool) (hd : Z) (ops : list operation) : M unit :=
  match ops with
  | [] => mret ()
  | o :: ops' => step checked hd o;; run checked hd ops'
  end.

(** Zero-filled storage (BSS) for the head at [hd] and the nodes at
    [nodes]. *)
Definition zeroed (hd : Z) (nodes : list Z) : heap :=
  list_to_map ((λ a, (a, Links nullptr nullptr)) <$> (hd :: nodes)).

(** [linked ()] as a pure reading of the memory. *)
Definition is_linked (h : heap) (n : Z) : bool :=
  match h !! n with
  | Some l => bool_decide (next_ l ≠ nullptr) && bool_decide (previous_ l ≠ nullptr)
  | None => false
  end.

(** The number of nodes among [nodes] that are linked. *)
Definition linked_count (h : heap) (nodes : list Z) : nat :=
  length (filter (λ n, is_linked h n = true) nodes).

(** * Memory updates, shapes and the abstract list *)

(** The memory after [p->next_ = v], respectively [p->previous_ = v]. *)
Definition wr_next (p v : Z) (h : heap) : heap :=
  alter (λ l, Links (previous_ l) v) p h.
Definition wr_prev (p v : Z) (h : heap) : heap :=
  alter (λ l, Links v (next_ l)) p h.

(** The memory after [unlink ()] of a linked node [n] with neighbours
    [p] and [s]. *)
Definition unlinked (n p s : Z) (h : heap) : heap :=
  wr_prev n nullptr (wr_next n nullptr (wr_prev s p (wr_next p s h))).

(** The memory after [clear ()] of the list at [hd]. *)
Definition cleared (hd : Z) (h : heap) : heap :=
  wr_prev hd hd (wr_next hd hd h).

(** The memory after the first-use test of [begin ()] and [link ()]. *)
Definition prepared (hd : Z) (h : heap) : heap :=
  match h !! hd with
  | Some l =>
      if bool_decide (previous_ l = nullptr) && bool_decide (next_ l = nullptr)
      then cleared hd h else h
  | None => h
  end.

(** The memory after [insert_after (node, after)], [an] being the
    node that followed [after]. *)
Definition inserted (node after an : Z) (h : heap) : heap :=
  wr_next after node (wr_prev an node (wr_next node an (wr_prev node after h))).

Definition first_or (d : Z) (l : list Z) : Z :=
  match l with [] => d | x :: _ => x end.

Fixpoint last_or (d : Z) (l : list Z) : Z :=
  match l with [] => d | x :: l' => last_or x l' end.

(** [seg h a l b]: the nodes of [l] are chained in this order, [a]
    precedes the first of them and [b] follows the last. *)
Fixpoint seg (h : heap) (a : Z) (l : list Z) (b : Z) : Prop :=
  match l with
  | [] => True
  | x :: l' => h !! x = Some (Links a (first_or b l')) ∧ seg h x l' b
  end.

(** [cycle h r]: the nodes of [r] form a closed ring, in this order. *)
Definition cycle (h : heap) (r : list Z) : Prop :=
  seg h (last_or nullptr r) r (first_or nullptr r).

(** Where the objects of a program live: the head of the list at [hd]
    and the link nodes at the addresses [nodes]. *)
Record layout (hd : Z) (nodes : list Z) : Prop := {
  layout_head : hd ≠ nullptr;
  layout_null : nullptr ∉ nodes;
  layout_sep : hd ∉ nodes;
  layout_nodup : NoDup nodes
}.

(** [wf hd nodes h l]: in the memory [h] the list holds exactly the
    nodes [l], in this order, and every other node is unlinked. *)
Record wf (hd : Z) (nodes : list Z) (h : heap) (l : list Z) : Prop := {
  wf_dom : ∀ x, x = hd ∨ x ∈ nodes → is_Some (h !! x);
  wf_sub : ∀ x, x ∈ l → x ∈ nodes;
  wf_nodup : NoDup l;
  wf_free : ∀ x, x ∈ nodes → x ∉ l → h !! x = Some (Links nullptr nullptr);
  wf_ring : cycle h (hd :: l) ∨ (l = [] ∧ h !! hd = Some (Links nullptr nullptr))
}.

Definition zero_fill (l : list Z) : heap :=
  list_to_map ((λ a, (a, Links nullptr nullptr)) <$> l).

(** The effect of an operation on the sequence of linked nodes; [None]
    is a violation of the insertion precondition. *)
Definition abstract_step (l : list Z) (o : operation) : option (list Z) :=
  match o with
  | OpLink n => if bool_decide (n ∈ l) then None else Some (l ++ [n])
  | OpUnlink n => Some (filter (λ x, x ≠ n) l)
  | OpBegin | OpEmpty => Some l
  end.

Fixpoint abstract_run (l : list Z) (ops : list operation) : option (list Z) :=
  match ops with
  | [] => Some l
  | o :: ops' =>
      match abstract_step l o with
      | Some l' => abstract_run l' ops'
      | None => None
      end
  end.

(** No operation of [ops] links a node that is linked already. *)
Definition respects_contract (ops : list operation) : bool :=
  bool_decide (is_Some (abstract_run [] ops)).

(** The operation works on a node of the program. *)
Definition on_nodes (nodes : list Z) (o : operation) : bool :=
  match o with
  | OpLink n | OpUnlink n => bool_decide (n ∈ nodes)
  | OpBegin | OpEmpty => true
  end.

(** * Reasoning about executions *)

Import static_double_list_links.

Lemma lookup_wr_next p v h x :
  wr_next p v h !! x =
  if decide (p = x) then (λ l, Links (previous_ l) v) <$> h !! x else h !! x.
Proof. unfold wr_next. rewrite lookup_alter. by case_decide; subst. Qed.

Lemma lookup_wr_prev p v h x :
  wr_prev p v h !! x =
  if decide (p = x) then (λ l, Links v (next_ l)) <$> h !! x else h !! x.
Proof. unfold wr_prev. rewrite lookup_alter. by case_decide; subst. Qed.

Ltac lookup_wr := repeat first [rewrite lookup_wr_next | rewrite lookup_wr_prev].

Lemma wr_next_is_Some p v h x : is_Some (wr_next p v h !! x) ↔ is_Some (h !! x).
Proof. rewrite lookup_wr_next. case_decide; [by rewrite fmap_is_Some | done]. Qed.

Lemma wr_prev_is_Some p v h x : is_Some (wr_prev p v h !! x) ↔ is_Some (h !! x).
Proof. rewrite lookup_wr_prev. case_decide; [by rewrite fmap_is_Some | done]. Qed.

Lemma bind_Done {A B} (m : M A) (f : A → M B) h a h' :
  m h = Done a h' → (m ≫= f) h = f a h'.
Proof. unfold mbind, M_bind. by intros ->. Qed.

Lemma load_Done p h l :
  p ≠ nullptr → h !! p = Some l → load p h = Done l h.
Proof. intros Hp Hl. unfold load. rewrite decide_False by done. by rewrite Hl. Qed.

Lemma next_Done p h l :
  p ≠ nullptr → h !! p = Some l → next p h = Done (next_ l) h.
Proof. intros Hp Hl. unfold next. by rewrite (bind_Done _ _ _ _ _ (load_Done _ _ _ Hp Hl)). Qed.

Lemma previous_Done p h l :
  p ≠ nullptr → h !! p = Some l → previous p h = Done (previous_ l) h.
Proof. intros Hp Hl. unfold previous. by rewrite (bind_Done _ _ _ _ _ (load_Done _ _ _ Hp Hl)). Qed.

Lemma set_next_Done p v h :
  p ≠ nullptr → is_Some (h !! p) → set_next p v h = Done () (wr_next p v h).
Proof.
  intros Hp [l Hl]. unfold set_next.
  rewrite (bind_Done _ _ _ _ _ (load_Done _ _ _ Hp Hl)).
  unfold store. rewrite decide_False by done. rewrite Hl. f_equal.
  apply map_eq; intros x. rewrite lookup_wr_next, lookup_insert.
  case_decide; subst; by rewrite ?Hl.
Qed.

Lemma set_previous_Done p v h :
  p ≠ nullptr → is_Some (h !! p) → set_previous p v h = Done () (wr_prev p v h).
Proof.
  intros Hp [l Hl]. unfold set_previous.
  rewrite (bind_Done _ _ _ _ _ (load_Done _ _ _ Hp Hl)).
  unfold store. rewrite decide_False by done. rewrite Hl. f_equal.
  apply map_eq; intros x. rewrite lookup_wr_prev, lookup_insert.
  case_decide; subst; by rewrite ?Hl.
Qed.

Lemma bind_Undefined {A B} (m : M A) (f : A → M B) h :
  m h = Undefined → (m ≫= f) h = Undefined.
Proof. unfold mbind, M_bind. by intros ->. Qed.

Lemma bind_AssertionFailed {A B} (m : M A) (f : A → M B) h :
  m h = AssertionFailed → (m ≫= f) h = AssertionFailed.
Proof. unfold mbind, M_bind. by intros ->. Qed.

Lemma load_Undefined p h :
  p = nullptr ∨ h !! p = None → load p h = Undefined.
Proof. intros Hp. unfold load. case_decide; [done|]. by destruct Hp as [?| ->]. Qed.

Lemma next_Undefined p h :
  p = nullptr ∨ h !! p = None → next p h = Undefined.
Proof. intros Hp. by apply bind_Undefined, load_Undefined. Qed.

Lemma previous_Undefined p h :
  p = nullptr ∨ h !! p = None → previous p h = Undefined.
Proof. intros Hp. by apply bind_Undefined, load_Undefined. Qed.

Lemma set_next_Undefined p v h :
  p = nullptr ∨ h !! p = None → set_next p v h = Undefined.
Proof. intros Hp. by apply bind_Undefined, load_Undefined. Qed.

Lemma set_previous_Undefined p v h :
  p = nullptr ∨ h !! p = None → set_previous p v h = Undefined.
Proof. intros Hp. by apply bind_Undefined, load_Undefined. Qed.

Lemma assert_true checked h : assert checked true h = Done () h.
Proof. unfold assert. by rewrite andb_false_r. Qed.

Lemma assert_false h : assert true false h = AssertionFailed.
Proof. done. Qed.

Lemma assert_unchecked c h : assert false c h = Done () h.
Proof. done. Qed.

(** Executing [m] first, when its outcome at [h] is known. *)
Ltac run_with H := rewrite (bind_Done _ _ _ _ _ H).

Lemma linked_run checked n h l :
  n ≠ nullptr → h !! n = Some l →
  linked checked n h =
  if bool_decide (next_ l ≠ nullptr) && bool_decide (previous_ l ≠ nullptr)
  then Done true h
  else if checked && negb (bool_decide (next_ l = nullptr) && bool_decide (previous_ l = nullptr))
       then AssertionFailed
       else Done false h.
Proof.
  intros Hn Hl. unfold linked.
  run_with (next_Done _ _ _ Hn Hl). run_with (previous_Done _ _ _ Hn Hl).
  destruct (bool_decide (next_ l ≠ nullptr) && bool_decide (previous_ l ≠ nullptr)) eqn:E; [done|].
  run_with (next_Done _ _ _ Hn Hl).
  destruct checked.
  - destruct (bool_decide (next_ l = nullptr)) eqn:E1; [|done].
    run_with (assert_true true h). run_with (previous_Done _ _ _ Hn Hl).
    destruct (bool_decide (previous_ l = nullptr)) eqn:E2; [|done].
    by run_with (assert_true true h).
  - run_with (assert_unchecked (bool_decide (next_ l = nullptr)) h).
    run_with (previous_Done _ _ _ Hn Hl).
    by run_with (assert_unchecked (bool_decide (previous_ l = nullptr)) h).
Qed.

Lemma linked_run_null checked n h :
  n ≠ nullptr → h !! n = Some (Links nullptr nullptr) →
  linked checked n h = Done false h.
Proof.
  intros Hn Hl. rewrite (linked_run checked n _ _ Hn Hl). cbn [previous_ next_].
  rewrite (bool_decide_eq_false_2 (nullptr ≠ nullptr)) by (intros H; by apply H).
  rewrite (bool_decide_eq_true_2 (nullptr = nullptr)) by done.
  cbn [andb negb]. by rewrite andb_false_r.
Qed.

Lemma unlink_run_unlinked checked n h l :
  n ≠ nullptr → h !! n = Some l →
  next_ l = nullptr ∨ previous_ l = nullptr →
  unlink checked n h =
  if checked && negb (bool_decide (next_ l = nullptr) && bool_decide (previous_ l = nullptr))
  then AssertionFailed
  else Done () h.
Proof.
  intros Hn Hl Hnull. unfold unlink.
  assert (bool_decide (next_ l ≠ nullptr) && bool_decide (previous_ l ≠ nullptr) = false) as E.
  { apply andb_false_iff. rewrite !bool_decide_eq_false. tauto. }
  pose proof (linked_run checked n h l Hn Hl) as Hlinked. rewrite E in Hlinked.
  destruct checked; simpl in *.
  - destruct (bool_decide (next_ l = nullptr)) eqn:E1; simpl in *.
    + destruct (bool_decide (previous_ l = nullptr)) eqn:E2; simpl in *.
      * run_with Hlinked. simpl. run_with (next_Done _ _ _ Hn Hl). rewrite E1.
        run_with (assert_true true h). run_with (previous_Done _ _ _ Hn Hl).
        rewrite E2. by run_with (assert_true true h).
      * unfold mbind, M_bind. by rewrite Hlinked.
    + unfold mbind, M_bind. by rewrite Hlinked.
  - run_with Hlinked. simpl. run_with (next_Done _ _ _ Hn Hl).
    run_with (assert_unchecked (bool_decide (next_ l = nullptr)) h).
    run_with (previous_Done _ _ _ Hn Hl).
    by run_with (assert_unchecked (bool_decide (previous_ l = nullptr)) h).
Qed.

Lemma unlink_run_null checked n h :
  n ≠ nullptr → h !! n = Some (Links nullptr nullptr) →
  unlink checked n h = Done () h.
Proof.
  intros Hn Hl. rewrite (unlink_run_unlinked checked n h _ Hn Hl) by by left.
  simpl. by rewrite andb_false_r.
Qed.

Lemma unlink_run_linked_gen checked n h p s :
  n ≠ nullptr → h !! n = Some (Links p s) →
  p ≠ nullptr → s ≠ nullptr →
  unlink checked n h =
  if bool_decide (is_Some (h !! p) ∧ is_Some (h !! s))
  then Done () (unlinked n p s h)
  else Undefined.
Proof.
  intros Hn Hl Hp Hs. unfold unlink.
  pose proof (linked_run checked n h _ Hn Hl) as Hlinked. simpl in Hlinked.
  rewrite !bool_decide_eq_true_2 in Hlinked by done. simpl in Hlinked.
  run_with Hlinked. simpl.
  run_with (previous_Done _ _ _ Hn Hl). run_with (next_Done _ _ _ Hn Hl). simpl.
  destruct (h !! p) as [lp|] eqn:Hlp; cycle 1.
  { rewrite bool_decide_eq_false_2 by (intros [[? [=]] _]).
    apply bind_Undefined, set_next_Undefined. by right. }
  run_with (set_next_Done p s h Hp (ltac:(by rewrite Hlp))).
  assert (wr_next p s h !! n = Some (Links p s)) as Hl1.
  { rewrite lookup_wr_next. case_decide; subst; by rewrite Hl. }
  run_with (next_Done _ _ _ Hn Hl1). run_with (previous_Done _ _ _ Hn Hl1). simpl.
  destruct (h !! s) as [ls|] eqn:Hls; cycle 1.
  { rewrite bool_decide_eq_false_2 by (intros [_ [? [=]]]).
    assert (wr_next p s h !! s = None) as Hnone.
    { apply eq_None_not_Some. rewrite wr_next_is_Some, Hls. by intros [? [=]]. }
    apply bind_Undefined, set_previous_Undefined. by right. }
  rewrite bool_decide_eq_true_2 by (split; eauto).
  assert (is_Some (wr_next p s h !! s)) as Hs1 by (rewrite wr_next_is_Some, Hls; eauto).
  run_with (set_previous_Done s p _ Hs Hs1).
  unfold clear.
  assert (is_Some (wr_prev s p (wr_next p s h) !! n)) as Hn2.
  { rewrite wr_prev_is_Some, Hl1. eauto. }
  run_with (set_next_Done n nullptr _ Hn Hn2).
  apply set_previous_Done; [done|]. by rewrite wr_next_is_Some.
Qed.

Lemma unlink_run_linked checked n h p s :
  n ≠ nullptr → h !! n = Some (Links p s) →
  p ≠ nullptr → s ≠ nullptr →
  is_Some (h !! p) → is_Some (h !! s) →
  unlink checked n h = Done () (unlinked n p s h).
Proof.
  intros Hn Hl Hp Hs Hap Has.
  rewrite (unlink_run_linked_gen checked n h p s) by done.
  by rewrite bool_decide_eq_true_2.
Qed.

Lemma unlink_run_invalid checked n h :
  n = nullptr ∨ h !! n = None → unlink checked n h = Undefined.
Proof.
  intros Hn. unfold unlink, linked. by do 2 apply bind_Undefined; apply next_Undefined.
Qed.

Lemma lookup_unlinked_self n p s h :
  is_Some (h !! n) → unlinked n p s h !! n = Some (Links nullptr nullptr).
Proof.
  intros [l Hl]. unfold unlinked.
  rewrite lookup_wr_prev, decide_True by done.
  rewrite lookup_wr_next, decide_True by done.
  assert (is_Some (wr_prev s p (wr_next p s h) !! n)) as [l' ->].
  { rewrite wr_prev_is_Some, wr_next_is_Some. eauto. }
  done.
Qed.

(** What a finished [unlink ()] did. *)
Lemma unlink_Done_inv checked n h u h' :
  unlink checked n h = Done u h' →
  ∃ p s, n ≠ nullptr ∧ h !! n = Some (Links p s) ∧
    ((p ≠ nullptr ∧ s ≠ nullptr ∧ is_Some (h !! p) ∧ is_Some (h !! s) ∧
      h' = unlinked n p s h) ∨
     ((p = nullptr ∨ s = nullptr) ∧ h' = h ∧
      (checked = true → p = nullptr ∧ s = nullptr))).
Proof.
  intros Hrun.
  destruct (decide (n = nullptr)) as [->|Hn].
  { rewrite unlink_run_invalid in Hrun by by left. done. }
  destruct (h !! n) as [[p s]|] eqn:Hl; cycle 1.
  { rewrite unlink_run_invalid in Hrun by by right. done. }
  exists p, s. split; [done|]. split; [done|].
  destruct (decide (p = nullptr)) as [Hp|Hp]; [|destruct (decide (s = nullptr)) as [Hs|Hs]].
  - right. rewrite (unlink_run_unlinked checked n h _ Hn Hl) in Hrun by by right.
    simpl in Hrun. destruct checked; repeat case_bool_decide;
      simpl in Hrun; simplify_eq; naive_solver.
  - right. rewrite (unlink_run_unlinked checked n h _ Hn Hl) in Hrun by by left.
    simpl in Hrun. destruct checked; repeat case_bool_decide;
      simpl in Hrun; simplify_eq; naive_solver.
  - left. rewrite (unlink_run_linked_gen checked n h p s) in Hrun by done.
    case_bool_decide as Hal; [|done]. destruct Hal. simplify_eq. done.
Qed.

(** ** Executions of the list members *)

Lemma lookup_cleared_head hd h :
  is_Some (h !! hd) → cleared hd h !! hd = Some (Links hd hd).
Proof.
  intros [l Hl]. unfold cleared.
  rewrite lookup_wr_prev, decide_True by done.
  rewrite lookup_wr_next, decide_True by done. by rewrite Hl.
Qed.

Lemma lookup_cleared_ne hd h x : x ≠ hd → cleared hd h !! x = h !! x.
Proof.
  intros Hx. unfold cleared.
  rewrite lookup_wr_prev, decide_False by done.
  by rewrite lookup_wr_next, decide_False by done.
Qed.

Lemma uninitialized_run hd h l :
  hd ≠ nullptr → h !! hd = Some l →
  static_double_list.uninitialized hd h =
  Done (bool_decide (previous_ l = nullptr) && bool_decide (next_ l = nullptr)) h.
Proof.
  intros Hhd Hl. unfold static_double_list.uninitialized.
  run_with (previous_Done _ _ _ Hhd Hl). by run_with (next_Done _ _ _ Hhd Hl).
Qed.

Lemma list_clear_run hd h :
  hd ≠ nullptr → is_Some (h !! hd) →
  static_double_list.clear hd h = Done () (cleared hd h).
Proof.
  intros Hhd Hl. unfold static_double_list.clear.
  run_with (set_next_Done hd hd h Hhd Hl).
  apply set_previous_Done; [done|]. by rewrite wr_next_is_Some.
Qed.

Lemma prepare_run {B} (k : M B) hd h :
  hd ≠ nullptr → is_Some (h !! hd) →
  (static_double_list.uninitialized hd ≫=
     λ u, when u (static_double_list.clear hd);; k) h = k (prepared hd h).
Proof.
  intros Hhd [l Hl]. run_with (uninitialized_run _ _ _ Hhd Hl).
  unfold prepared, when. rewrite Hl.
  destruct (bool_decide (previous_ l = nullptr) && bool_decide (next_ l = nullptr)); [|done].
  by run_with (list_clear_run hd h Hhd (ltac:(eauto))).
Qed.

Lemma empty_run hd h l :
  hd ≠ nullptr → h !! hd = Some l →
  static_double_list.empty hd h =
  Done (bool_decide (next_ l = hd)
        || bool_decide (previous_ l = nullptr) && bool_decide (next_ l = nullptr)) h.
Proof.
  intros Hhd Hl. unfold static_double_list.empty.
  run_with (next_Done _ _ _ Hhd Hl).
  case_bool_decide; [done|]. simpl. by apply uninitialized_run.
Qed.

Lemma prepared_is_Some hd h x : is_Some (prepared hd h !! x) ↔ is_Some (h !! x).
Proof.
  unfold prepared. destruct (h !! hd) as [l|]; [|done].
  destruct (_ && _); [|done]. unfold cleared.
  by rewrite wr_prev_is_Some, wr_next_is_Some.
Qed.

Lemma begin_run hd h :
  hd ≠ nullptr → is_Some (h !! hd) →
  ∃ l, prepared hd h !! hd = Some l ∧
       static_double_list.begin hd h = Done (next_ l) (prepared hd h).
Proof.
  intros Hhd Hl.
  destruct (proj2 (prepared_is_Some hd h hd) Hl) as [l' Hl'].
  exists l'. split; [done|]. unfold static_double_list.begin.
  rewrite prepare_run by done. by apply next_Done.
Qed.

Lemma insert_after_run checked node after h la :
  node ≠ nullptr → h !! node = Some (Links nullptr nullptr) →
  after ≠ nullptr → after ≠ node → h !! after = Some la →
  next_ la ≠ nullptr → is_Some (h !! next_ la) →
  static_double_list.insert_after checked node after h =
  Done () (inserted node after (next_ la) h).
Proof.
  intros Hnode Hl Hafter Hne Hla Han Halloc. unfold static_double_list.insert_after.
  run_with (previous_Done _ _ _ Hnode Hl). simpl. run_with (assert_true checked h).
  run_with (next_Done _ _ _ Hnode Hl). simpl. run_with (assert_true checked h).
  run_with (next_Done _ _ _ Hafter Hla).
  rewrite bool_decide_eq_true_2 by done. run_with (assert_true checked h).
  run_with (set_previous_Done node after h Hnode (ltac:(eauto))).
  assert (wr_prev node after h !! after = Some la) as Hla1.
  { by rewrite lookup_wr_prev, decide_False by done. }
  run_with (next_Done _ _ _ Hafter Hla1).
  assert (is_Some (wr_prev node after h !! node)) as Hn1.
  { rewrite wr_prev_is_Some. eauto. }
  run_with (set_next_Done node (next_ la) _ Hnode Hn1).
  assert (wr_next node (next_ la) (wr_prev node after h) !! after = Some la) as Hla2.
  { by rewrite lookup_wr_next, decide_False by done. }
  run_with (next_Done _ _ _ Hafter Hla2).
  assert (is_Some (wr_next node (next_ la) (wr_prev node after h) !! next_ la)) as Han2.
  { by rewrite wr_next_is_Some, wr_prev_is_Some. }
  run_with (set_previous_Done (next_ la) node _ Han Han2).
  apply set_next_Done; [done|].
  rewrite wr_prev_is_Some, Hla2. eauto.
Qed.

Lemma insert_after_linked checked node after h l :
  node ≠ nullptr → h !! node = Some l →
  previous_ l ≠ nullptr ∨ next_ l ≠ nullptr →
  static_double_list.insert_after checked node after h =
  if checked then AssertionFailed
  else static_double_list.insert_after false node after h.
Proof.
  intros Hnode Hl Hlinked. destruct checked; [|done].
  unfold static_double_list.insert_after.
  run_with (previous_Done _ _ _ Hnode Hl).
  destruct (decide (previous_ l = nullptr)) as [Hp|Hp].
  - rewrite (bool_decide_eq_true_2 _ Hp). run_with (assert_true true h).
    run_with (next_Done _ _ _ Hnode Hl).
    rewrite bool_decide_eq_false_2 by (destruct Hlinked; done).
    by apply bind_AssertionFailed.
  - rewrite (bool_decide_eq_false_2 _ Hp). by apply bind_AssertionFailed.
Qed.

Lemma link_run checked hd node h la :
  hd ≠ nullptr → is_Some (h !! hd) →
  node ≠ nullptr → node ≠ hd → h !! node = Some (Links nullptr nullptr) →
  ∀ lh, prepared hd h !! hd = Some lh →
  previous_ lh ≠ nullptr → previous_ lh ≠ node →
  prepared hd h !! previous_ lh = Some la →
  next_ la ≠ nullptr → is_Some (h !! next_ la) →
  static_double_list.link checked hd node h =
  Done () (inserted node (previous_ lh) (next_ la) (prepared hd h)).
Proof.
  intros Hhd Hal Hnode Hne Hl lh Hlh Ht Htne Hla Han Halloc.
  unfold static_double_list.link. rewrite prepare_run by done.
  unfold static_double_list.tail. run_with (previous_Done _ _ _ Hhd Hlh).
  apply insert_after_run; try done.
  - unfold prepared. destruct (h !! hd); [|done]. destruct (_ && _); [|done].
    by rewrite lookup_cleared_ne.
  - by rewrite prepared_is_Some.
Qed.

Lemma link_linked hd node h l :
  hd ≠ nullptr → is_Some (h !! hd) →
  node ≠ nullptr → h !! node = Some l →
  previous_ l ≠ nullptr ∨ next_ l ≠ nullptr →
  static_double_list.link true hd node h = AssertionFailed.
Proof.
  intros Hhd Hal Hnode Hl Hlinked.
  unfold static_double_list.link. rewrite prepare_run by done.
  destruct (proj2 (prepared_is_Some hd h hd) Hal) as [lh Hlh].
  unfold static_double_list.tail. run_with (previous_Done _ _ _ Hhd Hlh).
  assert (∃ l', prepared hd h !! node = Some l' ∧
                (previous_ l' ≠ nullptr ∨ next_ l' ≠ nullptr)) as (l' & Hl' & Hlinked').
  { unfold prepared. destruct Hal as [l0 Hl0]. rewrite Hl0.
    destruct (bool_decide (previous_ l0 = nullptr) && bool_decide (next_ l0 = nullptr)) eqn:E;
      [|eauto].
    destruct (decide (node = hd)) as [->|Hne].
    - rewrite lookup_cleared_head by eauto. eexists; split; [done|]. by left.
    - rewrite lookup_cleared_ne by done. eauto. }
  by rewrite (insert_after_linked true node _ _ l' Hnode Hl' Hlinked').
Qed.

(** ** The shape of a list in memory *)

Lemma first_or_app d l1 l2 : first_or d (l1 ++ l2) = first_or (first_or d l2) l1.
Proof. by destruct l1. Qed.

Lemma last_or_app d l1 l2 : last_or d (l1 ++ l2) = last_or (last_or d l1) l2.
Proof. revert d. induction l1 as [|x l1 IH]; intros d; simpl; [done|apply IH]. Qed.

Lemma last_or_elem d l : l ≠ [] → last_or d l ∈ l.
Proof.
  revert d. induction l as [|x l IH]; intros d Hne; [done|]. simpl.
  destruct l as [|y l]; [set_solver|].
  apply list_elem_of_further, IH. done.
Qed.

Lemma last_or_cases d l : last_or d l = d ∨ last_or d l ∈ l.
Proof. destruct l; [by left|right; by apply last_or_elem]. Qed.

Lemma first_or_cases d l : first_or d l = d ∨ first_or d l ∈ l.
Proof. destruct l; [by left|right; set_solver]. Qed.

Lemma last_or_nonempty d d' l : l ≠ [] → last_or d l = last_or d' l.
Proof. by destruct l. Qed.

Lemma first_or_nonempty d d' l : l ≠ [] → first_or d l = first_or d' l.
Proof. by destruct l. Qed.

Lemma seg_app h a l1 l2 b :
  seg h a (l1 ++ l2) b ↔ seg h a l1 (first_or b l2) ∧ seg h (last_or a l1) l2 b.
Proof.
  revert a. induction l1 as [|x l1 IH]; intros a; simpl; [tauto|].
  rewrite IH, first_or_app. tauto.
Qed.

Lemma cycle_rotate h l1 l2 : cycle h (l1 ++ l2) ↔ cycle h (l2 ++ l1).
Proof.
  destruct l1 as [|x1 l1]; [by rewrite app_nil_r|].
  destruct l2 as [|x2 l2]; [by rewrite app_nil_r|].
  unfold cycle. rewrite !seg_app, !last_or_app. simpl. tauto.
Qed.

Lemma seg_lookup h a l b x :
  seg h a l b → x ∈ l →
  ∃ p s, h !! x = Some (Links p s) ∧ p ∈ a :: l ∧ s ∈ b :: l.
Proof.
  revert a. induction l as [|y l IH]; intros a Hseg Hx; [by apply elem_of_nil in Hx|].
  destruct Hseg as [Hy Hseg]. apply elem_of_cons in Hx as [->|Hx].
  - exists a, (first_or b l). split; [done|]. split; [set_solver|].
    destruct (first_or_cases b l); set_solver.
  - destruct (IH _ Hseg Hx) as (p & s & Hl & Hp & Hs).
    exists p, s. split; [done|]. split; [by apply list_elem_of_further|].
    apply elem_of_cons in Hs as [->|Hs]; [by left|by do 2 right].
Qed.

(** Rewiring the two ends of a segment: the first node gets a new
    predecessor and the last node a new successor. *)
Lemma seg_rebound h h' a b a' b' l :
  NoDup l → seg h a l b →
  (∀ x lx, x ∈ l → h !! x = Some lx →
     h' !! x = Some (Links (if decide (x = first_or x l) then a' else previous_ lx)
                           (if decide (x = last_or x l) then b' else next_ lx))) →
  seg h' a' l b'.
Proof.
  revert a a'. induction l as [|x l IH]; intros a a' Hnd Hseg Hh'; [done|].
  destruct Hseg as [Hx Hseg]. apply NoDup_cons in Hnd as [Hxl Hnd].
  split.
  - rewrite (Hh' x _ (ltac:(set_solver)) Hx). simpl.
    rewrite decide_True by done. f_equal. f_equal.
    destruct l as [|y l]; simpl; [by rewrite decide_True|].
    rewrite decide_False; [done|].
    intros Heq. apply Hxl. rewrite Heq at 1.
    apply (last_or_elem y (y :: l)). done.
  - apply (IH x x Hnd Hseg). intros z lz Hz Hlz.
    assert (z ≠ x) as Hzx by (intros ->; done).
    rewrite (Hh' z lz (ltac:(set_solver)) Hlz). simpl.
    destruct l as [|y l]; [by apply elem_of_nil in Hz|]. simpl.
    f_equal. rewrite (decide_False (P := z = x)) by done.
    f_equal. case_decide as Hzy; [|done]. subst z.
    destruct Hseg as [Hy _]. by simplify_eq.
Qed.

(** Nodes outside the segment do not matter. *)
Lemma seg_frame h h' a l b :
  (∀ x, x ∈ l → h' !! x = h !! x) → seg h a l b → seg h' a l b.
Proof.
  revert a. induction l as [|x l IH]; intros a Hh' Hseg; [done|].
  destruct Hseg as [Hx Hseg]. split.
  - rewrite Hh'; [done|set_solver].
  - apply IH; [|done]. intros z Hz. apply Hh'. set_solver.
Qed.

(** Walking a segment that ends at the head visits its nodes in order. *)
Lemma iterate_seg h a l hd fuel :
  seg h a l hd → hd ∉ l → nullptr ∉ l → (length l ≤ fuel)%nat →
  static_double_list.iterate fuel hd (first_or hd l) h = Done (Some l) h.
Proof.
  revert a fuel. induction l as [|x l IH]; intros a fuel Hseg Hhd Hnull Hfuel.
  - destruct fuel; simpl; by rewrite bool_decide_eq_true_2.
  - destruct fuel as [|fuel]; [simpl in Hfuel; lia|].
    destruct Hseg as [Hx Hseg]. simpl.
    rewrite bool_decide_eq_false_2 by set_solver.
    assert (x ≠ nullptr) as Hx0 by set_solver.
    run_with (next_Done _ _ _ Hx0 Hx). simpl.
    rewrite (bind_Done _ _ _ _ _ (IH x fuel Hseg ltac:(set_solver) ltac:(set_solver)
                                    ltac:(simpl in Hfuel; lia))).
    done.
Qed.

Lemma seg_last_lookup h a r b :
  r ≠ [] → seg h a r b → ∃ p, h !! last_or a r = Some (Links p b).
Proof.
  revert a. induction r as [|x r IH]; intros a Hne Hseg; [done|].
  destruct Hseg as [Hx Hseg]. destruct r as [|y r]; simpl in *; [eauto|].
  apply (IH x); done.
Qed.

Lemma lookup_inserted_node node after an h :
  after ≠ node → an ≠ node → is_Some (h !! node) →
  inserted node after an h !! node = Some (Links after an).
Proof.
  intros Ha Han [l Hl]. unfold inserted.
  rewrite lookup_wr_next, decide_False by done.
  rewrite lookup_wr_prev, decide_False by done.
  rewrite lookup_wr_next, decide_True by done.
  rewrite lookup_wr_prev, decide_True by done. by rewrite Hl.
Qed.

Lemma lookup_inserted_other node after an h x :
  x ≠ node →
  inserted node after an h !! x = wr_next after node (wr_prev an node h) !! x.
Proof.
  intros Hx. unfold inserted. lookup_wr.
  destruct (decide (node = x)); [done|]. reflexivity.
Qed.

Lemma lookup_unlinked_other n p s h x :
  x ≠ n → unlinked n p s h !! x = wr_prev s p (wr_next p s h) !! x.
Proof.
  intros Hx. unfold unlinked.
  rewrite lookup_wr_prev, decide_False by done.
  by rewrite lookup_wr_next, decide_False by done.
Qed.

Lemma inserted_is_Some node after an h x :
  is_Some (inserted node after an h !! x) ↔ is_Some (h !! x).
Proof.
  unfold inserted.
  by rewrite wr_next_is_Some, wr_prev_is_Some, wr_next_is_Some, wr_prev_is_Some.
Qed.

Lemma unlinked_is_Some n p s h x :
  is_Some (unlinked n p s h !! x) ↔ is_Some (h !! x).
Proof.
  unfold unlinked.
  by rewrite wr_prev_is_Some, wr_next_is_Some, wr_prev_is_Some, wr_next_is_Some.
Qed.

Lemma cleared_is_Some hd h x : is_Some (cleared hd h !! x) ↔ is_Some (h !! x).
Proof. unfold cleared. by rewrite wr_prev_is_Some, wr_next_is_Some. Qed.

(** ** The invariant of a static list and its nodes *)

Lemma lookup_zero_fill l x :
  zero_fill l !! x = if decide (x ∈ l) then Some (Links nullptr nullptr) else None.
Proof.
  unfold zero_fill. induction l as [|y l IH].
  - rewrite fmap_nil, list_to_map_nil, lookup_empty. by rewrite decide_False by set_solver.
  - rewrite fmap_cons, list_to_map_cons, lookup_insert. destruct (decide (y = x)) as [->|Hne].
    + by rewrite decide_True by apply list_elem_of_here.
    + rewrite IH. destruct (decide (x ∈ l)) as [Hin|Hin].
      * by rewrite decide_True by by apply list_elem_of_further.
      * rewrite decide_False; [done|]. rewrite elem_of_cons. naive_solver.
Qed.

Lemma zeroed_zero_fill hd nodes : zeroed hd nodes = zero_fill (hd :: nodes).
Proof. done. Qed.

Lemma wf_zeroed hd nodes : wf hd nodes (zeroed hd nodes) [].
Proof.
  rewrite zeroed_zero_fill. split.
  - intros x Hx. rewrite lookup_zero_fill.
    rewrite decide_True; [eauto|]. by apply elem_of_cons.
  - intros x Hx. by apply elem_of_nil in Hx.
  - constructor.
  - intros x Hx _. rewrite lookup_zero_fill. by rewrite decide_True by set_solver.
  - right. split; [done|]. rewrite lookup_zero_fill. by rewrite decide_True by set_solver.
Qed.

Lemma cycle_head h hd l :
  cycle h (hd :: l) ↔
  h !! hd = Some (Links (last_or hd l) (first_or hd l)) ∧ seg h hd l hd.
Proof. done. Qed.

Section Invariant.
Context (hd : Z) (nodes : list Z) (Hlayout : layout hd nodes).

Lemma wf_elem_nonnull h l x : wf hd nodes h l → x ∈ hd :: l → x ≠ nullptr.
Proof.
  intros Hwf Hx ->. apply elem_of_cons in Hx as [Hx|Hx].
  - by apply (layout_head _ _ Hlayout).
  - by apply (layout_null _ _ Hlayout), (wf_sub _ _ _ _ Hwf).
Qed.

Lemma wf_head_notin h l : wf hd nodes h l → hd ∉ l.
Proof.
  intros Hwf Hx. by apply (layout_sep _ _ Hlayout), (wf_sub _ _ _ _ Hwf).
Qed.

Lemma wf_head_alloc h l : wf hd nodes h l → is_Some (h !! hd).
Proof. intros Hwf. apply (wf_dom _ _ _ _ Hwf). by left. Qed.

(** The first-use initialisation establishes the ring. *)
Lemma wf_prepared h l :
  wf hd nodes h l →
  wf hd nodes (prepared hd h) l ∧ cycle (prepared hd h) (hd :: l).
Proof.
  intros Hwf. pose proof (layout_head _ _ Hlayout) as Hhd.
  destruct (wf_ring _ _ _ _ Hwf) as [Hring|[-> Hnull]].
  - assert (prepared hd h = h) as ->; [|done].
    apply cycle_head in Hring as [Hl _]. unfold prepared. rewrite Hl. simpl.
    assert (last_or hd l ≠ nullptr) as Hlast.
    { apply (wf_elem_nonnull h l _ Hwf).
      destruct (last_or_cases hd l) as [->|?]; set_solver. }
    by rewrite (bool_decide_eq_false_2 _ Hlast).
  - assert (prepared hd h = cleared hd h) as ->.
    { unfold prepared. by rewrite Hnull. }
    assert (cleared hd h !! hd = Some (Links hd hd)) as Hc.
    { apply lookup_cleared_head. eauto. }
    split; [|by apply cycle_head].
    split.
    + intros x. rewrite cleared_is_Some. apply (wf_dom _ _ _ _ Hwf).
    + intros x Hx. by apply elem_of_nil in Hx.
    + constructor.
    + intros x Hx Hxl. rewrite lookup_cleared_ne.
      * by apply (wf_free _ _ _ _ Hwf).
      * intros ->. by apply (layout_sep _ _ Hlayout).
    + left. by apply cycle_head.
Qed.
End Invariant.

Lemma filter_ne_notin (n : Z) (l : list Z) :
  n ∉ l → filter (λ x, x ≠ n) l = l.
Proof.
  induction l as [|y l IH]; intros Hn; [done|].
  apply not_elem_of_cons in Hn as [Hne Hn].
  rewrite filter_cons_True by done. by rewrite IH.
Qed.

Lemma filter_ne_split (n : Z) (l1 l2 : list Z) :
  n ∉ l1 → n ∉ l2 → filter (λ x, x ≠ n) (l1 ++ n :: l2) = l1 ++ l2.
Proof.
  intros H1 H2. rewrite filter_app, filter_cons_False by (intros Hne; by apply Hne).
  by rewrite !filter_ne_notin.
Qed.

Section Operations.
Context (hd : Z) (nodes : list Z) (Hlayout : layout hd nodes).

(** [link (n)] of an unlinked node appends it to the list. *)
Lemma wf_link checked h l n :
  wf hd nodes h l → n ∈ nodes → n ∉ l →
  ∃ h', static_double_list.link checked hd n h = Done () h' ∧
        wf hd nodes h' (l ++ [n]).
Proof.
  intros Hwf Hn Hnl.
  pose proof (layout_head _ _ Hlayout) as Hhd.
  destruct (wf_prepared hd nodes Hlayout h l Hwf) as [Hwf' Hring].
  pose proof Hring as Hring0.
  apply cycle_head in Hring as [Hlh Hseg].
  set (t := last_or hd l) in *.
  assert (t ∈ hd :: l) as Ht.
  { unfold t. destruct (last_or_cases hd l) as [->|?];
      [apply list_elem_of_here|by apply list_elem_of_further]. }
  assert (n ≠ nullptr) as Hn0 by (intros ->; by apply (layout_null _ _ Hlayout)).
  assert (n ≠ hd) as Hnhd by (intros ->; by apply (layout_sep _ _ Hlayout)).
  assert (t ≠ n) as Htn.
  { intros ->. apply elem_of_cons in Ht as [?|?]; done. }
  assert (t ≠ nullptr) as Ht0 by by apply (wf_elem_nonnull hd nodes Hlayout _ l _ Hwf').
  destruct (seg_last_lookup (prepared hd h) t (hd :: l) hd) as [p Hla]; [done|done|].
  change (last_or t (hd :: l)) with t in Hla.
  exists (inserted n t hd (prepared hd h)). split.
  { apply (link_run checked hd n h (Links p hd) Hhd
             (wf_head_alloc hd nodes h l Hwf) Hn0 Hnhd
             (wf_free _ _ _ _ Hwf n Hn Hnl) _ Hlh); try done.
    apply (wf_head_alloc hd nodes h l Hwf). }
  assert (∀ x lx, x ≠ n → prepared hd h !! x = Some lx →
            inserted n t hd (prepared hd h) !! x =
            Some (Links (if decide (x = hd) then n else previous_ lx)
                        (if decide (x = t) then n else next_ lx))) as Hother.
  { intros x lx Hx Hlx. rewrite lookup_inserted_other by done. lookup_wr.
    rewrite Hlx. repeat case_decide; simplify_eq; simpl; first [done | by destruct lx]. }
  split.
  - intros x. rewrite inserted_is_Some. apply (wf_dom _ _ _ _ Hwf').
  - intros x Hx. apply elem_of_app in Hx as [Hx|Hx].
    + by apply (wf_sub _ _ _ _ Hwf).
    + apply list_elem_of_singleton in Hx. by subst.
  - apply NoDup_app. split; [apply (wf_nodup _ _ _ _ Hwf)|]. split.
    + intros x Hx Hxn. apply list_elem_of_singleton in Hxn. by subst.
    + apply NoDup_singleton.
  - intros x Hx Hxl. rewrite elem_of_app, list_elem_of_singleton in Hxl.
    assert (x ≠ n) as Hxn by tauto. assert (x ∉ l) as Hxl' by tauto.
    rewrite (Hother x _ Hxn (wf_free _ _ _ _ Hwf' x Hx Hxl')). simpl.
    rewrite decide_False by (intros ->; by apply (layout_sep _ _ Hlayout)).
    rewrite decide_False; [done|]. intros ->.
    apply elem_of_cons in Ht as [Ht|Ht]; [|done].
    apply (layout_sep _ _ Hlayout). by rewrite <- Ht.
  - left. apply (cycle_rotate _ (hd :: l) [n]).
    change ([n] ++ hd :: l) with (n :: (hd :: l)). apply cycle_head. split.
    + cbn [last_or first_or]. fold t. apply lookup_inserted_node; [done|done|].
      apply (wf_dom _ _ _ _ Hwf'). by right.
    + apply (seg_rebound (prepared hd h) _ t hd n n (hd :: l)).
      * apply NoDup_cons. split; [|apply (wf_nodup _ _ _ _ Hwf)].
        apply (wf_head_notin hd nodes Hlayout h l Hwf).
      * done.
      * intros x lx Hx Hlx. cbn [last_or first_or]. fold t.
        apply Hother; [|done]. intros ->.
        apply elem_of_cons in Hx as [?|?]; done.
Qed.

(** [unlink ()] of a node of the program removes it from the list,
    and does nothing when the node is not linked. *)
Lemma wf_unlink checked h l n :
  wf hd nodes h l → n ∈ nodes →
  ∃ h', unlink checked n h = Done () h' ∧
        wf hd nodes h' (filter (λ x, x ≠ n) l).
Proof.
  intros Hwf Hn.
  pose proof (layout_head _ _ Hlayout) as Hhd.
  assert (n ≠ nullptr) as Hn0 by (intros ->; by apply (layout_null _ _ Hlayout)).
  assert (n ≠ hd) as Hnhd by (intros ->; by apply (layout_sep _ _ Hlayout)).
  destruct (decide (n ∈ l)) as [Hnl|Hnl]; cycle 1.
  { exists h. rewrite filter_ne_notin by done. split; [|done].
    apply unlink_run_null; [done|]. by apply (wf_free _ _ _ _ Hwf). }
  destruct (wf_ring _ _ _ _ Hwf) as [Hring|[-> _]];
    [|by apply elem_of_nil in Hnl].
  apply list_elem_of_split in Hnl as (l1 & l2 & ->).
  pose proof (wf_nodup _ _ _ _ Hwf) as Hnd.
  apply NoDup_app in Hnd as (Hnd1 & Hdisj & Hnd2).
  apply NoDup_cons in Hnd2 as [Hnl2 Hnd2].
  assert (n ∉ l1) as Hnl1.
  { intros Hin. apply (Hdisj n Hin). apply list_elem_of_here. }
  rewrite filter_ne_split by done.
  set (rest := l2 ++ hd :: l1).
  change (hd :: l1 ++ n :: l2) with ((hd :: l1) ++ (n :: l2)) in Hring.
  apply cycle_rotate in Hring.
  change ((n :: l2) ++ hd :: l1) with (n :: rest) in Hring.
  apply cycle_head in Hring as [Hl Hseg].
  assert (rest ≠ []) as Hrest by (unfold rest; by destruct l2).
  assert (n ∉ rest) as Hnrest.
  { unfold rest. rewrite elem_of_app, elem_of_cons. naive_solver. }
  assert (∀ x, x ∈ rest → x ∈ hd :: l1 ++ l2) as Hrest_in.
  { intros x. unfold rest. rewrite elem_of_app, !elem_of_cons, elem_of_app. tauto. }
  assert (∀ x, x ∈ rest → x ≠ nullptr ∧ x ≠ n ∧ is_Some (h !! x)) as Hrest_ok.
  { intros x Hx. split; [|split].
    - intros ->. apply Hrest_in in Hx. apply elem_of_cons in Hx as [?|Hx]; [done|].
      apply (layout_null _ _ Hlayout), (wf_sub _ _ _ _ Hwf).
      rewrite elem_of_app, elem_of_cons. rewrite elem_of_app in Hx. tauto.
    - by intros ->.
    - destruct (seg_lookup _ _ _ _ _ Hseg Hx) as (? & ? & -> & _). eauto. }
  set (p := last_or n rest) in *. set (s := first_or n rest) in *.
  assert (p ∈ rest) as Hp by by apply last_or_elem.
  assert (s ∈ rest) as Hs.
  { unfold s. destruct rest; [done|]. apply list_elem_of_here. }
  destruct (Hrest_ok p Hp) as (Hp0 & Hpn & Hpa).
  destruct (Hrest_ok s Hs) as (Hs0 & Hsn & Hsa).
  exists (unlinked n p s h). split; [by apply unlink_run_linked|].
  assert (∀ x lx, x ≠ n → h !! x = Some lx →
            unlinked n p s h !! x =
            Some (Links (if decide (x = s) then p else previous_ lx)
                        (if decide (x = p) then s else next_ lx))) as Hother.
  { intros x lx Hx Hlx. rewrite lookup_unlinked_other by done. lookup_wr.
    rewrite Hlx. repeat case_decide; simplify_eq; simpl; first [done | by destruct lx]. }
  split.
  - intros x. rewrite unlinked_is_Some. apply (wf_dom _ _ _ _ Hwf).
  - intros x Hx. apply (wf_sub _ _ _ _ Hwf).
    rewrite elem_of_app, elem_of_cons. rewrite elem_of_app in Hx. tauto.
  - apply NoDup_app. split; [done|]. split; [|done].
    intros x Hx1 Hx2. apply (Hdisj x Hx1). by apply list_elem_of_further.
  - intros x Hx Hxl. destruct (decide (x = n)) as [->|Hxn].
    + apply lookup_unlinked_self. rewrite Hl. eauto.
    + assert (x ∉ l1 ++ n :: l2) as Hxl'.
      { rewrite elem_of_app, elem_of_cons. rewrite elem_of_app in Hxl. tauto. }
      assert (x ∉ rest) as Hxrest.
      { intros Hin. apply Hrest_in in Hin. apply elem_of_cons in Hin as [->|?]; [|done].
        by apply (layout_sep _ _ Hlayout). }
      rewrite (Hother x _ Hxn (wf_free _ _ _ _ Hwf x Hx Hxl')).
      rewrite !decide_False; [done| |]; by intros ->.
  - left. apply (cycle_rotate _ (hd :: l1) l2). fold rest.
    unfold cycle. rewrite (last_or_nonempty _ n) by done.
    rewrite (first_or_nonempty _ n) by done. fold p s.
    apply (seg_rebound h _ n n p s rest).
    + unfold rest. apply NoDup_app. split; [done|]. split.
      * intros x Hx2 Hx1. apply elem_of_cons in Hx1 as [->|Hx1].
        -- apply (layout_sep _ _ Hlayout), (wf_sub _ _ _ _ Hwf).
           rewrite elem_of_app, elem_of_cons. tauto.
        -- apply (Hdisj x Hx1). by apply list_elem_of_further.
      * apply NoDup_cons. split; [|done]. intros Hin.
        apply (layout_sep _ _ Hlayout), (wf_sub _ _ _ _ Hwf).
        rewrite elem_of_app. tauto.
    + done.
    + intros x lx Hx Hlx.
      rewrite (first_or_nonempty x n) by done.
      rewrite (last_or_nonempty x n) by done. fold p s.
      apply Hother; [|done]. by intros ->.
Qed.
End Operations.

(** ** The abstract list behind a program *)

Lemma abstract_run_app l ops1 ops2 :
  abstract_run l (ops1 ++ ops2) =
  match abstract_run l ops1 with
  | Some l' => abstract_run l' ops2
  | None => None
  end.
Proof.
  revert l. induction ops1 as [|o ops1 IH]; intros l; simpl; [done|].
  destruct (abstract_step l o); [apply IH|done].
Qed.

Lemma respects_contract_take k ops :
  respects_contract ops = true → respects_contract (take k ops) = true.
Proof.
  unfold respects_contract. rewrite !bool_decide_eq_true.
  rewrite <- (take_drop k ops) at 1. rewrite abstract_run_app.
  destruct (abstract_run [] (take k ops)); [eauto|by intros [? [=]]].
Qed.

Lemma forallb_take {A} (f : A → bool) k (l : list A) :
  forallb f l = true → forallb f (take k l) = true.
Proof.
  revert k. induction l as [|x l IH]; intros [|k]; simpl; try done.
  rewrite !andb_true_iff. intros [? ?]. split; [done|by apply IH].
Qed.

Section Programs.
Context (hd : Z) (nodes : list Z) (Hlayout : layout hd nodes).

(** A node in the list has two non-null pointers. *)
Lemma wf_linked_lookup h l x :
  wf hd nodes h l → x ∈ l →
  ∃ p s, h !! x = Some (Links p s) ∧ p ≠ nullptr ∧ s ≠ nullptr.
Proof.
  intros Hwf Hx.
  destruct (wf_ring _ _ _ _ Hwf) as [Hring|[-> _]]; [|by apply elem_of_nil in Hx].
  apply cycle_head in Hring as [_ Hseg].
  destruct (seg_lookup _ _ _ _ _ Hseg Hx) as (p & s & Hl & Hp & Hs).
  exists p, s. split; [done|].
  split; by apply (wf_elem_nonnull hd nodes Hlayout h l _ Hwf).
Qed.

Lemma wf_is_linked h l x :
  wf hd nodes h l → x ∈ nodes → is_linked h x = true ↔ x ∈ l.
Proof.
  intros Hwf Hx. unfold is_linked. split.
  - intros Hlinked. destruct (decide (x ∈ l)) as [|Hxl]; [done|].
    rewrite (wf_free _ _ _ _ Hwf x Hx Hxl) in Hlinked. done.
  - intros Hxl. destruct (wf_linked_lookup h l x Hwf Hxl) as (p & s & -> & Hp & Hs).
    simpl. by rewrite !bool_decide_eq_true_2.
Qed.

Lemma linked_count_wf h l :
  wf hd nodes h l → linked_count h nodes = length l.
Proof.
  intros Hwf. unfold linked_count. apply Permutation_length.
  apply NoDup_Permutation.
  - apply NoDup_filter, (layout_nodup _ _ Hlayout).
  - apply (wf_nodup _ _ _ _ Hwf).
  - intros x. rewrite list_elem_of_filter. split.
    + intros [Hlinked Hx]. by apply (wf_is_linked h l x Hwf Hx).
    + intros Hx. pose proof (wf_sub _ _ _ _ Hwf x Hx) as Hxn.
      split; [|done]. by apply (wf_is_linked h l x Hwf Hxn).
Qed.

Lemma wf_length h l : wf hd nodes h l → (length l ≤ length nodes)%nat.
Proof.
  intros Hwf. rewrite <- (linked_count_wf h l Hwf). unfold linked_count.
  apply length_filter.
Qed.

(** Every node of a well-formed memory is null/null or fully linked. *)
Lemma wf_symmetric h l x lx :
  wf hd nodes h l → x ∈ hd :: nodes → h !! x = Some lx →
  (previous_ lx = nullptr ∧ next_ lx = nullptr) ∨
  (previous_ lx ≠ nullptr ∧ next_ lx ≠ nullptr).
Proof.
  intros Hwf Hx Hlx. apply elem_of_cons in Hx as [->|Hx].
  - destruct (wf_ring _ _ _ _ Hwf) as [Hring|[-> Hnull]].
    + apply cycle_head in Hring as [Hl _]. rewrite Hl in Hlx. simplify_eq. simpl.
      right. split; apply (wf_elem_nonnull hd nodes Hlayout h l _ Hwf).
      * destruct (last_or_cases hd l) as [->|?];
          [apply list_elem_of_here|by apply list_elem_of_further].
      * destruct (first_or_cases hd l) as [->|?];
          [apply list_elem_of_here|by apply list_elem_of_further].
    + rewrite Hnull in Hlx. simplify_eq. by left.
  - destruct (decide (x ∈ l)) as [Hxl|Hxl].
    + destruct (wf_linked_lookup h l x Hwf Hxl) as (p & s & Hl & Hp & Hs).
      rewrite Hl in Hlx. simplify_eq. by right.
    + rewrite (wf_free _ _ _ _ Hwf x Hx Hxl) in Hlx. simplify_eq. by left.
Qed.

(** A full iteration visits the nodes of the list, in order. *)
Lemma traverse_wf h l fuel :
  wf hd nodes h l → (length l ≤ fuel)%nat →
  static_double_list.traverse fuel hd h = Done (Some l) (prepared hd h).
Proof.
  intros Hwf Hfuel. pose proof (layout_head _ _ Hlayout) as Hhd.
  destruct (wf_prepared hd nodes Hlayout h l Hwf) as [Hwf' Hring].
  apply cycle_head in Hring as [Hl Hseg].
  unfold static_double_list.traverse.
  destruct (begin_run hd h Hhd (wf_head_alloc hd nodes h l Hwf)) as (lh & Hlh & Hbegin).
  run_with Hbegin. rewrite Hl in Hlh. simplify_eq.
  unfold static_double_list.end_.
  change ((mret hd ≫= λ e, static_double_list.iterate fuel e (next_ (Links (last_or hd l) (first_or hd l)))) (prepared hd h))
    with (static_double_list.iterate fuel hd (first_or hd l) (prepared hd h)).
  apply (iterate_seg _ hd); [done| |  |done].
  - apply (wf_head_notin hd nodes Hlayout h l Hwf).
  - intros Hin. by apply (layout_null _ _ Hlayout), (wf_sub _ _ _ _ Hwf).
Qed.

Lemma wf_begin h l :
  wf hd nodes h l →
  ∃ b, static_double_list.begin hd h = Done b (prepared hd h).
Proof.
  intros Hwf.
  destruct (begin_run hd h (layout_head _ _ Hlayout)
              (wf_head_alloc hd nodes h l Hwf)) as (lh & _ & Hbegin).
  eauto.
Qed.

Lemma wf_empty h l :
  wf hd nodes h l →
  static_double_list.empty hd h = Done (bool_decide (l = [])) h.
Proof.
  intros Hwf. pose proof (layout_head _ _ Hlayout) as Hhd.
  destruct (wf_ring _ _ _ _ Hwf) as [Hring|[-> Hnull]].
  - apply cycle_head in Hring as [Hl _].
    rewrite (empty_run hd h _ Hhd Hl). simpl. f_equal.
    assert (last_or hd l ≠ nullptr) as Hlast.
    { apply (wf_elem_nonnull hd nodes Hlayout h l _ Hwf).
      destruct (last_or_cases hd l) as [->|?];
        [apply list_elem_of_here|by apply list_elem_of_further]. }
    rewrite (bool_decide_eq_false_2 _ Hlast). simpl. rewrite orb_false_r.
    destruct l as [|x l]; simpl.
    + by rewrite !bool_decide_eq_true_2.
    + apply bool_decide_eq_false_2.
      intros ->. apply (wf_head_notin hd nodes Hlayout h _ Hwf), list_elem_of_here.
  - rewrite (empty_run hd h _ Hhd Hnull). simpl.
    by rewrite orb_true_r.
Qed.
End Programs.

Section Refinement.
Context (hd : Z) (nodes : list Z) (Hlayout : layout hd nodes).

(** Each operation acts on the memory as [abstract_step] acts on
    the sequence of linked nodes; linking a linked node stops a
    checked build. *)
Lemma step_refines h l o :
  wf hd nodes h l → on_nodes nodes o = true →
  match abstract_step l o with
  | Some l' => ∀ checked, ∃ h', step checked hd o h = Done () h' ∧ wf hd nodes h' l'
  | None => step true hd o h = AssertionFailed
  end.
Proof.
  intros Hwf Hon. destruct o as [n|n| |]; simpl in *.
  - apply bool_decide_eq_true in Hon. case_bool_decide as Hnl.
    + destruct (wf_linked_lookup hd nodes Hlayout h l n Hwf Hnl)
        as (p & s & Hl & Hp & Hs).
      apply (link_linked hd n h (Links p s) (layout_head _ _ Hlayout)
               (wf_head_alloc hd nodes h l Hwf)); [|done|by left].
      intros ->. by apply (layout_null _ _ Hlayout).
    + intros checked. by apply wf_link.
  - apply bool_decide_eq_true in Hon. intros checked. by apply wf_unlink.
  - intros checked. destruct (wf_begin hd nodes Hlayout h l Hwf) as [b Hb].
    exists (prepared hd h). run_with Hb. split; [done|].
    by apply (wf_prepared hd nodes Hlayout).
  - intros checked. exists h. rewrite (bind_Done _ _ _ _ _ (wf_empty hd nodes Hlayout h l Hwf)).
    done.
Qed.

Lemma run_refines h l ops :
  wf hd nodes h l → forallb (on_nodes nodes) ops = true →
  match abstract_run l ops with
  | Some l' => ∀ checked, ∃ h', run checked hd ops h = Done () h' ∧ wf hd nodes h' l'
  | None => run true hd ops h = AssertionFailed
  end.
Proof.
  revert h l. induction ops as [|o ops IH]; intros h l Hwf Hon; simpl.
  { intros checked. by exists h. }
  simpl in Hon. apply andb_true_iff in Hon as [Hon Hons].
  pose proof (step_refines h l o Hwf Hon) as Hstep.
  destruct (abstract_step l o) as [l1|]; [|by apply bind_AssertionFailed].
  destruct (abstract_run l1 ops) as [l'|] eqn:E.
  - intros checked. destruct (Hstep checked) as (h1 & Hrun1 & Hwf1).
    pose proof (IH h1 l1 Hwf1 Hons) as Hrest. rewrite E in Hrest.
    destruct (Hrest checked) as (h' & Hrun & Hwf'). exists h'. by run_with Hrun1.
  - destruct (Hstep true) as (h1 & Hrun1 & Hwf1).
    pose proof (IH h1 l1 Hwf1 Hons) as Hrest. rewrite E in Hrest.
    by run_with Hrun1.
Qed.
End Refinement.

(** ** Further facts used by the claims *)

(** Closed decidable side conditions, by evaluation. *)
Ltac by_decide :=
  lazymatch goal with
  | |- ?P => apply (bool_decide_unpack P); vm_compute; exact I
  end.

Lemma layout_1_234 : layout 1 [2; 3; 4].
Proof. split; [done|by_decide|by_decide|by_decide]. Defined.

(** An empty list, uninitialised or initialised, and unlinked nodes
    form a well-formed memory. *)
Lemma wf_empty_list hd nodes h :
  (h !! hd = Some (Links nullptr nullptr) ∨ h !! hd = Some (Links hd hd)) →
  (∀ x, x ∈ nodes → h !! x = Some (Links nullptr nullptr)) →
  wf hd nodes h [].
Proof.
  intros Hhead Hnodes. split.
  - intros x [->|Hx]; [destruct Hhead as [->| ->]; eauto|].
    rewrite (Hnodes x Hx). eauto.
  - intros x Hx. by apply elem_of_nil in Hx.
  - constructor.
  - intros x Hx _. by apply Hnodes.
  - destruct Hhead as [Hnull|Hself]; [by right|left]. by apply cycle_head.
Qed.

Lemma linked_run_invalid checked n h :
  n = nullptr ∨ h !! n = None → linked checked n h = Undefined.
Proof. intros Hn. unfold linked. by apply bind_Undefined, next_Undefined. Qed.

Lemma double_list_clear_run hd h :
  hd ≠ nullptr → is_Some (h !! hd) →
  double_list.clear hd h = Done () (cleared hd h).
Proof. apply list_clear_run. Qed.

Lemma double_list_empty_run hd h l :
  hd ≠ nullptr → h !! hd = Some l →
  double_list.empty hd h =
  Done (bool_decide (next_ l = hd)
        || bool_decide (previous_ l = nullptr) && bool_decide (next_ l = nullptr)) h.
Proof. apply empty_run. Qed.

Lemma get_pointer_member offset object :
  intrusive_list.get_pointer offset (intrusive_list.member offset object) = object.
Proof. unfold intrusive_list.get_pointer, intrusive_list.member. lia. Qed.

Section Intrusive.
Context (hd : Z) (nodes : list Z) (Hlayout : layout hd nodes).

Lemma wf_cycle_nonempty h l :
  wf hd nodes h l → l ≠ [] → cycle h (hd :: l).
Proof. intros Hwf Hne. by destruct (wf_ring _ _ _ _ Hwf) as [?|[? _]]. Qed.

(** Unlinking the node found at one end of a non-empty list. *)
Lemma unlink_end_run checked offset h l (pick : Z → M Z) n :
  wf hd nodes h l → l ≠ [] → n ∈ l → pick hd h = Done n h →
  ∃ h', (e ← static_double_list.empty hd;
         if (e : bool) then mret nullptr
         else x ← pick hd; unlink checked x;;
              mret (intrusive_list.get_pointer offset x)) h
        = Done (intrusive_list.get_pointer offset n) h'.
Proof.
  intros Hwf Hne Hn Hpick.
  rewrite (bind_Done _ _ _ _ _ (wf_empty hd nodes Hlayout h l Hwf)).
  rewrite bool_decide_eq_false_2 by done. run_with Hpick.
  destruct (wf_unlink hd nodes Hlayout checked h l n Hwf
              (wf_sub _ _ _ _ Hwf n Hn)) as (h' & Hrun & _).
  exists h'. by run_with Hrun.
Qed.
End Intrusive.

(** A node in the list has valid neighbours other than itself. *)
Lemma wf_neighbours hd nodes h l n p s :
  layout hd nodes → wf hd nodes h l → n ∈ l →
  h !! n = Some (Links p s) →
  p ≠ nullptr ∧ s ≠ nullptr ∧ p ≠ n ∧ s ≠ n ∧
  is_Some (h !! p) ∧ is_Some (h !! s).
Proof.
  intros Hlayout Hwf Hnl Hl.
  assert (l ≠ []) as Hne by (intros ->; by apply elem_of_nil in Hnl).
  pose proof (wf_cycle_nonempty hd nodes h l Hwf Hne) as Hring.
  apply list_elem_of_split in Hnl as (l1 & l2 & ->).
  pose proof (wf_nodup _ _ _ _ Hwf) as Hnd.
  apply NoDup_app in Hnd as (_ & Hdisj & Hnd2).
  apply NoDup_cons in Hnd2 as [Hnl2 _].
  assert (n ∉ l1) as Hnl1.
  { intros Hin. apply (Hdisj n Hin). apply list_elem_of_here. }
  assert (n ≠ hd) as Hnhd.
  { intros ->. apply (wf_head_notin hd nodes Hlayout h _ Hwf).
    apply elem_of_app. right. apply list_elem_of_here. }
  set (rest := l2 ++ hd :: l1).
  change (hd :: l1 ++ n :: l2) with ((hd :: l1) ++ (n :: l2)) in Hring.
  apply cycle_rotate in Hring.
  change ((n :: l2) ++ hd :: l1) with (n :: rest) in Hring.
  apply cycle_head in Hring as [Hl' Hseg].
  rewrite Hl in Hl'. injection Hl' as -> ->.
  assert (rest ≠ []) as Hrest by (unfold rest; by destruct l2).
  assert (n ∉ rest) as Hnrest.
  { unfold rest. rewrite elem_of_app, elem_of_cons. naive_solver. }
  assert (∀ x, x ∈ rest → x ≠ nullptr ∧ x ≠ n ∧ is_Some (h !! x)) as Hrest_ok.
  { intros x Hx. split; [|split].
    - apply (wf_elem_nonnull hd nodes Hlayout h _ x Hwf).
      unfold rest in Hx. rewrite elem_of_app, elem_of_cons in Hx.
      rewrite elem_of_cons, elem_of_app, elem_of_cons. tauto.
    - by intros ->.
    - destruct (seg_lookup _ _ _ _ _ Hseg Hx) as (? & ? & -> & _). eauto. }
  assert (last_or n rest ∈ rest) as Hp by by apply last_or_elem.
  assert (first_or n rest ∈ rest) as Hs.
  { destruct rest; [done|]. apply list_elem_of_here. }
  destruct (Hrest_ok _ Hp) as (? & ? & ?). destruct (Hrest_ok _ Hs) as (? & ? & ?).
  done.
Qed.

(** ** What a finished execution did *)

Lemma bind_Done_inv {A B} (m : M A) (f : A → M B) h b h' :
  (m ≫= f) h = Done b h' → ∃ a h1, m h = Done a h1 ∧ f a h1 = Done b h'.
Proof. unfold mbind, M_bind. destruct (m h); [eauto|done|done]. Qed.

Lemma load_Done_inv p h l h' :
  load p h = Done l h' → h' = h ∧ p ≠ nullptr ∧ h !! p = Some l.
Proof.
  unfold load. case_decide; [done|]. destruct (h !! p); [|done].
  intros [= -> ->]. done.
Qed.

Lemma next_Done_inv p h v h' :
  next p h = Done v h' →
  h' = h ∧ p ≠ nullptr ∧ ∃ l, h !! p = Some l ∧ v = next_ l.
Proof.
  intros Hrun. apply bind_Done_inv in Hrun as (l & h1 & Hload & Hret).
  apply load_Done_inv in Hload as (-> & Hp & Hl).
  injection Hret as <- <-. eauto.
Qed.

Lemma previous_Done_inv p h v h' :
  previous p h = Done v h' →
  h' = h ∧ p ≠ nullptr ∧ ∃ l, h !! p = Some l ∧ v = previous_ l.
Proof.
  intros Hrun. apply bind_Done_inv in Hrun as (l & h1 & Hload & Hret).
  apply load_Done_inv in Hload as (-> & Hp & Hl).
  injection Hret as <- <-. eauto.
Qed.

Lemma set_next_Done_inv p v h u h' :
  set_next p v h = Done u h' →
  p ≠ nullptr ∧ is_Some (h !! p) ∧ h' = wr_next p v h.
Proof.
  intros Hrun. pose proof Hrun as Hrun'.
  apply bind_Done_inv in Hrun as (l & h1 & Hload & _).
  apply load_Done_inv in Hload as (-> & Hp & Hl).
  rewrite set_next_Done in Hrun' by eauto. injection Hrun' as <-. eauto.
Qed.

Lemma set_previous_Done_inv p v h u h' :
  set_previous p v h = Done u h' →
  p ≠ nullptr ∧ is_Some (h !! p) ∧ h' = wr_prev p v h.
Proof.
  intros Hrun. pose proof Hrun as Hrun'.
  apply bind_Done_inv in Hrun as (l & h1 & Hload & _).
  apply load_Done_inv in Hload as (-> & Hp & Hl).
  rewrite set_previous_Done in Hrun' by eauto. injection Hrun' as <-. eauto.
Qed.

Lemma assert_Done_inv checked c h u h' :
  assert checked c h = Done u h' → h' = h ∧ (checked = true → c = true).
Proof.
  unfold assert. destruct checked, c; simpl; try done; by intros [= <-].
Qed.

(** A finished [insert_after (node, after)] wrote the four pointers,
    whatever the aliasing between its arguments. *)
Lemma insert_after_Done_inv checked node after h u h' :
  static_double_list.insert_after checked node after h = Done u h' →
  ∃ ln la,
    node ≠ nullptr ∧ after ≠ nullptr ∧
    h !! node = Some ln ∧ h !! after = Some la ∧
    next_ la ≠ nullptr ∧
    (checked = true → ln = Links nullptr nullptr) ∧
    h' = inserted node after (next_ la) h.
Proof.
  intros Hrun. unfold static_double_list.insert_after in Hrun.
  apply bind_Done_inv in Hrun as (p & h1 & Hp & Hrun).
  apply previous_Done_inv in Hp as (-> & Hnode & ln & Hln & ->).
  apply bind_Done_inv in Hrun as ([] & h1 & Ha1 & Hrun).
  apply assert_Done_inv in Ha1 as (-> & Hc1).
  apply bind_Done_inv in Hrun as (n & h1 & Hn & Hrun).
  apply next_Done_inv in Hn as (-> & _ & ln' & Hln' & ->).
  rewrite Hln in Hln'. injection Hln' as <-.
  apply bind_Done_inv in Hrun as ([] & h1 & Ha2 & Hrun).
  apply assert_Done_inv in Ha2 as (-> & Hc2).
  apply bind_Done_inv in Hrun as (an & h1 & Han & Hrun).
  apply next_Done_inv in Han as (-> & Hafter & la & Hla & ->).
  apply bind_Done_inv in Hrun as ([] & h1 & Ha3 & Hrun).
  apply assert_Done_inv in Ha3 as (-> & _).
  apply bind_Done_inv in Hrun as ([] & h1 & Hw1 & Hrun).
  apply set_previous_Done_inv in Hw1 as (_ & _ & ->).
  apply bind_Done_inv in Hrun as (an & h2 & Han & Hrun).
  apply next_Done_inv in Han as (-> & _ & la1 & Hla1 & ->).
  assert (next_ la1 = next_ la) as Heq1.
  { rewrite lookup_wr_prev, Hla in Hla1.
    case_decide; cbn [fmap option_fmap option_map] in Hla1; by simplify_eq. }
  rewrite Heq1 in Hrun.
  apply bind_Done_inv in Hrun as ([] & h2 & Hw2 & Hrun).
  apply set_next_Done_inv in Hw2 as (_ & _ & ->).
  apply bind_Done_inv in Hrun as (an & h3 & Han & Hrun).
  apply next_Done_inv in Han as (-> & _ & la2 & Hla2 & ->).
  assert (next_ la2 = next_ la) as Heq2.
  { rewrite lookup_wr_next, lookup_wr_prev, Hla in Hla2.
    repeat case_decide; cbn [fmap option_fmap option_map] in Hla2; by simplify_eq. }
  rewrite Heq2 in Hrun.
  apply bind_Done_inv in Hrun as ([] & h3 & Hw3 & Hrun).
  apply set_previous_Done_inv in Hw3 as (Han0 & _ & ->).
  apply set_next_Done_inv in Hrun as (_ & _ & ->).
  exists ln, la. split_and!; try done.
  intros Hchecked. specialize (Hc1 Hchecked). specialize (Hc2 Hchecked).
  apply bool_decide_eq_true in Hc1, Hc2. destruct ln; simpl in *. by subst.
Qed.

Lemma uninitialized_Undefined hd h :
  hd = nullptr ∨ h !! hd = None →
  static_double_list.uninitialized hd h = Undefined.
Proof.
  intros Hhd. unfold static_double_list.uninitialized.
  by apply bind_Undefined, previous_Undefined.
Qed.

Lemma begin_Undefined hd h :
  hd = nullptr ∨ h !! hd = None →
  static_double_list.begin hd h = Undefined.
Proof.
  intros Hhd. unfold static_double_list.begin.
  by apply bind_Undefined, uninitialized_Undefined.
Qed.

(** The first-use initialisation happens once. *)
Lemma prepared_idem hd h :
  hd ≠ nullptr → prepared hd (prepared hd h) = prepared hd h.
Proof.
  intros Hhd. unfold prepared. destruct (h !! hd) as [l|] eqn:Hl; [|by rewrite Hl].
  destruct (bool_decide (previous_ l = nullptr) && bool_decide (next_ l = nullptr)) eqn:E.
  - rewrite lookup_cleared_head by eauto. cbn [previous_ next_].
    by rewrite (bool_decide_eq_false_2 (hd = nullptr)) by done.
  - by rewrite Hl, E.
Qed.

Lemma lookup_prepared_ne hd h x : x ≠ hd → prepared hd h !! x = h !! x.
Proof.
  intros Hx. unfold prepared. destruct (h !! hd); [|done].
  destruct (_ && _); [|done]. by apply lookup_cleared_ne.
Qed.

Section Positions.
Context (hd : Z) (nodes : list Z) (Hlayout : layout hd nodes).

(** The memory after [link (n)] on a well-formed list. *)
Lemma wf_link_run checked h l n :
  wf hd nodes h l → n ∈ nodes → n ∉ l →
  static_double_list.link checked hd n h =
  Done () (inserted n (last_or hd l) hd (prepared hd h)).
Proof.
  intros Hwf Hn Hnl.
  pose proof (layout_head _ _ Hlayout) as Hhd.
  destruct (wf_prepared hd nodes Hlayout h l Hwf) as [Hwf' Hring].
  apply cycle_head in Hring as [Hlh Hseg].
  assert (last_or hd l ∈ hd :: l) as Ht.
  { destruct (last_or_cases hd l) as [->|?];
      [apply list_elem_of_here|by apply list_elem_of_further]. }
  assert (n ≠ nullptr) as Hn0 by (intros ->; by apply (layout_null _ _ Hlayout)).
  assert (n ≠ hd) as Hnhd by (intros ->; by apply (layout_sep _ _ Hlayout)).
  assert (last_or hd l ≠ n) as Htn.
  { intros Heq. rewrite Heq in Ht. apply elem_of_cons in Ht as [?|?]; done. }
  assert (last_or hd l ≠ nullptr) as Ht0
    by by apply (wf_elem_nonnull hd nodes Hlayout _ l _ Hwf').
  destruct (seg_last_lookup (prepared hd h) (last_or hd l) (hd :: l) hd)
    as [p Hla]; [done|done|].
  change (last_or (last_or hd l) (hd :: l)) with (last_or hd l) in Hla.
  apply (link_run checked hd n h (Links p hd) Hhd
           (wf_head_alloc hd nodes h l Hwf) Hn0 Hnhd
           (wf_free _ _ _ _ Hwf n Hn Hnl) _ Hlh); try done.
  apply (wf_head_alloc hd nodes h l Hwf).
Qed.

(** [insert_after (n, after)] puts [n] right behind [after] in the
    order of the list; [after] is the head or a node of the list. *)
Lemma wf_insert_after checked h l1 l2 n :
  wf hd nodes h (l1 ++ l2) → cycle h (hd :: l1 ++ l2) →
  n ∈ nodes → n ∉ l1 ++ l2 →
  static_double_list.insert_after checked n (last_or hd l1) h =
  Done () (inserted n (last_or hd l1) (first_or hd l2) h) ∧
  wf hd nodes (inserted n (last_or hd l1) (first_or hd l2) h) (l1 ++ n :: l2).
Proof.
  intros Hwf Hring Hn Hnl.
  pose proof (layout_head _ _ Hlayout) as Hhd.
  assert (n ≠ nullptr) as Hn0 by (intros ->; by apply (layout_null _ _ Hlayout)).
  assert (n ≠ hd) as Hnhd by (intros ->; by apply (layout_sep _ _ Hlayout)).
  pose proof (wf_head_notin hd nodes Hlayout h _ Hwf) as Hhdl.
  set (a := last_or hd l1). set (s := first_or hd l2).
  set (r := l2 ++ hd :: l1).
  assert (∀ x, x ∈ r ↔ x ∈ hd :: l1 ++ l2) as Hr_in.
  { intros x. unfold r. rewrite elem_of_app, !elem_of_cons, elem_of_app. tauto. }
  assert (a ∈ r) as Ha.
  { apply Hr_in. unfold a. destruct (last_or_cases hd l1) as [->|Hin];
      [apply list_elem_of_here|].
    apply list_elem_of_further, elem_of_app. by left. }
  assert (s ∈ r) as Hs.
  { apply Hr_in. unfold s. destruct (first_or_cases hd l2) as [->|Hin];
      [apply list_elem_of_here|].
    apply list_elem_of_further, elem_of_app. by right. }
  assert (n ∉ r) as Hnr.
  { rewrite Hr_in, elem_of_cons. intros [?|?]; done. }
  assert (r ≠ []) as Hrne by (unfold r; by destruct l2).
  assert (NoDup r) as Hndr.
  { unfold r. apply NoDup_app. pose proof (wf_nodup _ _ _ _ Hwf) as Hnd.
    apply NoDup_app in Hnd as (Hnd1 & Hdisj & Hnd2).
    split; [done|]. split.
    - intros x Hx2 Hx1. apply elem_of_cons in Hx1 as [->|Hx1].
      + apply Hhdl, elem_of_app. by right.
      + by apply (Hdisj x Hx1).
    - apply NoDup_cons. split; [|done]. intros Hin.
      apply Hhdl, elem_of_app. by left. }
  change (hd :: l1 ++ l2) with ((hd :: l1) ++ l2) in Hring.
  apply cycle_rotate in Hring. fold r in Hring. unfold cycle in Hring.
  assert (last_or nullptr r = a) as Hlast.
  { unfold r, a. by rewrite last_or_app. }
  assert (first_or nullptr r = s) as Hfirst.
  { unfold r, s. by rewrite first_or_app. }
  rewrite Hlast, Hfirst in Hring.
  destruct (seg_last_lookup h a r s Hrne Hring) as [p Hla].
  rewrite (last_or_nonempty a nullptr r Hrne), Hlast in Hla.
  assert (∀ x, x ∈ r → x ≠ nullptr ∧ x ≠ n ∧ is_Some (h !! x)) as Hr_ok.
  { intros x Hx. split; [|split].
    - apply (wf_elem_nonnull hd nodes Hlayout h _ x Hwf). by apply Hr_in.
    - by intros ->.
    - destruct (seg_lookup _ _ _ _ _ Hring Hx) as (? & ? & -> & _). eauto. }
  destruct (Hr_ok a Ha) as (Ha0 & Han & _).
  destruct (Hr_ok s Hs) as (Hs0 & Hsn & Hsa).
  assert (h !! n = Some (Links nullptr nullptr)) as Hln
    by by apply (wf_free _ _ _ _ Hwf).
  split.
  { by apply (insert_after_run checked n a h (Links p s)). }
  assert (∀ x lx, x ≠ n → h !! x = Some lx →
            inserted n a s h !! x =
            Some (Links (if decide (x = s) then n else previous_ lx)
                        (if decide (x = a) then n else next_ lx))) as Hother.
  { intros x lx Hx Hlx. rewrite lookup_inserted_other by done. lookup_wr.
    rewrite Hlx. repeat case_decide; simplify_eq; simpl; first [done | by destruct lx]. }
  split.
  - intros x Hx. rewrite inserted_is_Some. by apply (wf_dom _ _ _ _ Hwf).
  - intros x Hx. rewrite elem_of_app, elem_of_cons in Hx.
    destruct Hx as [Hx|[->|Hx]]; [|done|];
      apply (wf_sub _ _ _ _ Hwf), elem_of_app; tauto.
  - pose proof (wf_nodup _ _ _ _ Hwf) as Hnd.
    apply NoDup_app in Hnd as (Hnd1 & Hdisj & Hnd2).
    apply NoDup_app. split; [done|]. split.
    + intros x Hx1 Hx2. apply elem_of_cons in Hx2 as [->|Hx2].
      * apply Hnl, elem_of_app. by left.
      * by apply (Hdisj x Hx1).
    + apply NoDup_cons. split; [|done]. intros Hin.
      apply Hnl, elem_of_app. by right.
  - intros x Hx Hxl.
    assert (x ≠ n) as Hxn.
    { intros ->. apply Hxl, elem_of_app. right. apply list_elem_of_here. }
    assert (x ∉ l1 ++ l2) as Hxl'.
    { rewrite elem_of_app. rewrite elem_of_app, elem_of_cons in Hxl. tauto. }
    assert (x ∉ r) as Hxr.
    { rewrite Hr_in, elem_of_cons. intros [->|?]; [|done].
      by apply (layout_sep _ _ Hlayout). }
    rewrite (Hother x _ Hxn (wf_free _ _ _ _ Hwf x Hx Hxl')).
    rewrite !decide_False; [done| |]; by intros ->.
  - left. change (hd :: l1 ++ n :: l2) with ((hd :: l1) ++ (n :: l2)).
    apply cycle_rotate. change ((n :: l2) ++ hd :: l1) with (n :: r).
    apply cycle_head. split.
    + rewrite (last_or_nonempty n nullptr r Hrne), Hlast.
      rewrite (first_or_nonempty n nullptr r Hrne), Hfirst.
      apply lookup_inserted_node; [done|done|]. rewrite Hln. eauto.
    + apply (seg_rebound h _ a s n n r Hndr Hring).
      intros x lx Hx Hlx.
      rewrite (first_or_nonempty x nullptr r Hrne), Hfirst.
      rewrite (last_or_nonempty x nullptr r Hrne), Hlast.
      apply Hother; [|done]. by intros ->.
Qed.

(** In the ring every node is the successor of its predecessor and
    the predecessor of its successor. *)
Lemma wf_inverse_neighbours h l x p s :
  wf hd nodes h l → cycle h (hd :: l) → x ∈ hd :: l →
  h !! x = Some (Links p s) →
  next_ <$> h !! p = Some x ∧ previous_ <$> h !! s = Some x.
Proof.
  intros Hwf Hring Hx Hl.
  apply list_elem_of_split in Hx as (r1 & r2 & Hsplit).
  rewrite Hsplit in Hring. apply cycle_rotate in Hring.
  change ((x :: r2) ++ r1) with (x :: (r2 ++ r1)) in Hring.
  apply cycle_head in Hring as [Hl' Hseg].
  rewrite Hl in Hl'. injection Hl' as -> ->.
  destruct (r2 ++ r1) as [|y rest] eqn:Hrest.
  { simpl. by rewrite Hl. }
  split.
  - destruct (seg_last_lookup h x (y :: rest) x ltac:(done) Hseg) as [q Hq].
    by rewrite Hq.
  - destruct Hseg as [Hy _]. cbn [first_or]. by rewrite Hy.
Qed.

(** From the zero-filled storage a finished run leaves a well-formed
    list of the nodes that [abstract_run] computes. *)
Lemma run_wf checked ops l h :
  forallb (on_nodes nodes) ops = true →
  abstract_run [] ops = Some l →
  run checked hd ops (zeroed hd nodes) = Done () h →
  wf hd nodes h l.
Proof.
  intros Hon Habs Hrun.
  pose proof (run_refines hd nodes Hlayout (zeroed hd nodes) [] ops
                (wf_zeroed hd nodes) Hon) as Hrefines.
  rewrite Habs in Hrefines. destruct (Hrefines checked) as (h' & Hrun' & Hwf).
  rewrite Hrun in Hrun'. by simplify_eq.
Qed.
End Positions.

(** Unlinking the node that was linked last undoes the link. *)
Lemma unlinked_inserted n t hd h lh lt :
  n ≠ hd → n ≠ t →
  h !! n = Some (Links nullptr nullptr) →
  h !! hd = Some lh → previous_ lh = t →
  h !! t = Some lt → next_ lt = hd →
  unlinked n t hd (inserted n t hd h) = h.
Proof.
  intros Hnhd Hnt Hn Hlh Hprev Hlt Hnext. apply map_eq. intros x.
  destruct (decide (x = n)) as [->|Hxn].
  { rewrite lookup_unlinked_self; [done|]. rewrite inserted_is_Some. eauto. }
  rewrite lookup_unlinked_other by done. lookup_wr.
  rewrite lookup_inserted_other by done. lookup_wr.
  destruct lh as [ph nh], lt as [pt nt]. simpl in Hprev, Hnext. subst ph nt.
  destruct (decide (hd = x)) as [Hhx|Hhx]; destruct (decide (t = x)) as [Htx|Htx].
  - subst x. subst t. rewrite Hlh in Hlt. injection Hlt as <- <-.
    by rewrite Hlh.
  - subst x. by rewrite Hlh.
  - subst x. by rewrite Hlt.
  - done.
Qed.

Section Initialised.
Context (hd : Z) (nodes : list Z) (Hlayout : layout hd nodes).

(** [unlink ()] of a node never nulls the head. *)
Lemma unlink_keeps_cycle checked h l n h' :
  wf hd nodes h l → cycle h (hd :: l) → n ∈ nodes →
  unlink checked n h = Done () h' →
  wf hd nodes h' (filter (λ x, x ≠ n) l) ∧
  cycle h' (hd :: filter (λ x, x ≠ n) l).
Proof.
  intros Hwf Hring Hn Hrun.
  destruct (wf_unlink hd nodes Hlayout checked h l n Hwf Hn) as (h1 & Hrun1 & Hwf1).
  rewrite Hrun in Hrun1. injection Hrun1 as <-. split; [done|].
  destruct (wf_ring _ _ _ _ Hwf1) as [?|[_ Hnull]]; [done|exfalso].
  apply cycle_head in Hring as [Hhead _].
  assert (last_or hd l ≠ nullptr) as Hlast.
  { apply (wf_elem_nonnull hd nodes Hlayout h l _ Hwf).
    destruct (last_or_cases hd l) as [->|?];
      [apply list_elem_of_here|by apply list_elem_of_further]. }
  assert (n ≠ hd) as Hnhd by (intros ->; by apply (layout_sep _ _ Hlayout)).
  destruct (unlink_Done_inv _ _ _ _ _ Hrun) as (p & s & _ & _ & Hcase).
  destruct Hcase as [(Hp & Hs & _ & _ & ->)|(_ & -> & _)].
  - rewrite lookup_unlinked_other in Hnull by done.
    rewrite lookup_wr_prev, lookup_wr_next, Hhead in Hnull.
    repeat case_decide; cbn [fmap option_fmap option_map previous_ next_] in Hnull;
      simplify_eq; done.
  - rewrite Hhead in Hnull. by simplify_eq.
Qed.

(** Once the head is initialised no operation brings the
    uninitialised state back. *)
Lemma run_keeps_cycle checked ops h l l' :
  wf hd nodes h l → cycle h (hd :: l) →
  forallb (on_nodes nodes) ops = true →
  abstract_run l ops = Some l' →
  ∃ h', run checked hd ops h = Done () h' ∧
        wf hd nodes h' l' ∧ cycle h' (hd :: l').
Proof.
  revert h l. induction ops as [|o ops IH]; intros h l Hwf Hring Hon Habs; simpl in *.
  { simplify_eq. by exists h. }
  apply andb_true_iff in Hon as [Hon Hons].
  pose proof (step_refines hd nodes Hlayout h l o Hwf Hon) as Hstep.
  destruct (abstract_step l o) as [l1|] eqn:Habs1; [|done].
  destruct (Hstep checked) as (h1 & Hrun1 & Hwf1).
  assert (cycle h1 (hd :: l1)) as Hring1.
  { destruct o as [n|n| |]; simpl in Habs1, Hon.
    - case_bool_decide; [done|]. simplify_eq.
      apply (wf_cycle_nonempty hd nodes h1 _ Hwf1). by destruct l.
    - simplify_eq. apply bool_decide_eq_true in Hon.
      by apply (unlink_keeps_cycle checked h l n h1).
    - simplify_eq. simpl in Hrun1.
      destruct (wf_begin hd nodes Hlayout h l1 Hwf) as [b Hb].
      rewrite (bind_Done _ _ _ _ _ Hb) in Hrun1. injection Hrun1 as <-.
      by apply (wf_prepared hd nodes Hlayout).
    - simplify_eq. simpl in Hrun1.
      rewrite (bind_Done _ _ _ _ _ (wf_empty hd nodes Hlayout h l1 Hwf)) in Hrun1.
      by injection Hrun1 as <-. }
  destruct (IH h1 l1 Hwf1 Hring1 Hons Habs) as (h' & Hrun & Hwf' & Hring').
  exists h'. by run_with Hrun1.
Qed.
End Initialised.

(** * The claims *)

(** C1, as stated, fails for [empty ()]: on a zero-filled list at
    address 1, [empty ()] does not leave the list in a state where
    [uninitialized ()] returns false. *)
Lemma C1_empty_does_not_initialize :
  ¬ ∃ e h', static_double_list.empty 1 (zeroed 1 []) = Done e h' ∧
            static_double_list.uninitialized 1 h' = Done false h'.
Proof.
  intros (e & h' & Hempty & Huninit).
  vm_compute in Hempty. injection Hempty as <- <-.
  vm_compute in Huninit. discriminate.
Qed.

(** C1, amended. For a zero-initialised static list [uninitialized ()]
    returns true; the first [begin ()] returns [end ()] and leaves the
    list in the initialised empty state, where [uninitialized ()]
    returns false and [empty ()] returns true; a call of [empty ()] on
    the zero-initialised list returns true and leaves the list as it
    was, still uninitialised. *)
Theorem C1_static_list_first_use hd h :
  hd ≠ nullptr → h !! hd = Some (Links nullptr nullptr) →
  static_double_list.uninitialized hd h = Done true h ∧
  (∃ h', static_double_list.begin hd h = Done hd h' ∧
         static_double_list.end_ hd h' = Done hd h' ∧
         h' !! hd = Some (Links hd hd) ∧
         static_double_list.uninitialized hd h' = Done false h' ∧
         static_double_list.empty hd h' = Done true h') ∧
  static_double_list.empty hd h = Done true h.
Proof.
  intros Hhd Hl. split; [|split].
  - by rewrite (uninitialized_run hd h _ Hhd Hl).
  - exists (cleared hd h).
    assert (cleared hd h !! hd = Some (Links hd hd)) as Hc
      by (apply lookup_cleared_head; eauto).
    assert (prepared hd h = cleared hd h) as Hprep.
    { unfold prepared. by rewrite Hl. }
    destruct (begin_run hd h Hhd ltac:(eauto)) as (lh & Hlh & Hbegin).
    rewrite Hprep in Hlh, Hbegin. rewrite Hc in Hlh. simplify_eq.
    split; [done|]. split; [done|]. split; [done|]. split.
    + rewrite (uninitialized_run hd _ _ Hhd Hc). cbn [previous_ next_].
      by rewrite (bool_decide_eq_false_2 (hd = nullptr)) by done.
    + rewrite (empty_run hd _ _ Hhd Hc). cbn [previous_ next_].
      by rewrite (bool_decide_eq_true_2 (hd = hd)) by done.
  - rewrite (empty_run hd h _ Hhd Hl). cbn [previous_ next_].
    rewrite (bool_decide_eq_true_2 (nullptr = nullptr)) by done.
    by rewrite orb_true_r.
Qed.

Lemma C1_static_list_first_use_witness :
  static_double_list.uninitialized 1 (zeroed 1 []) = Done true (zeroed 1 []) ∧
  (∃ h', static_double_list.begin 1 (zeroed 1 []) = Done 1 h' ∧
         static_double_list.end_ 1 h' = Done 1 h' ∧
         h' !! 1 = Some (Links 1 1) ∧
         static_double_list.uninitialized 1 h' = Done false h' ∧
         static_double_list.empty 1 h' = Done true h') ∧
  static_double_list.empty 1 (zeroed 1 []) = Done true (zeroed 1 []).
Proof. apply (C1_static_list_first_use 1 (zeroed 1 [])); [done|reflexivity]. Defined.

(** C3. Calling [unlink ()] twice on a node has exactly the outcome of
    calling it once, in every memory and in both builds; and
    [unlink ()] of a node whose pointers are null changes nothing. *)
Theorem C3_unlink_idempotent checked n h :
  (unlink checked n;; unlink checked n) h = unlink checked n h ∧
  (n ≠ nullptr → h !! n = Some (Links nullptr nullptr) →
   unlink checked n h = Done () h).
Proof.
  split; [|intros; by apply unlink_run_null].
  destruct (unlink checked n h) as [[] h'| |] eqn:Hrun.
  - run_with Hrun.
    destruct (unlink_Done_inv _ _ _ _ _ Hrun) as (p & s & Hn & Hl & Hcase).
    destruct Hcase as [(_ & _ & _ & _ & ->)|(_ & -> & _)]; [|done].
    apply unlink_run_null; [done|]. apply lookup_unlinked_self. eauto.
  - by apply bind_AssertionFailed.
  - by apply bind_Undefined.
Qed.

Lemma C3_unlink_idempotent_witness :
  (unlink true 2;; unlink true 2) (zeroed 1 [2]) = unlink true 2 (zeroed 1 [2]) ∧
  unlink true 2 (zeroed 1 [2]) = Done () (zeroed 1 [2]).
Proof.
  destruct (C3_unlink_idempotent true 2 (zeroed 1 [2])) as [Htwice Hnop].
  split; [exact Htwice|]. apply Hnop; [done|reflexivity].
Defined.

(** C4. [unlink ()] of a linked node (both pointers non-null), whose
    predecessor [p] and successor [s] are nodes other than the node
    itself, leaves the [next_] of [p] pointing at [s] and the
    [previous_] of [s] pointing at [p]; afterwards both pointers of
    the node are null and [linked ()] returns false. Every linked
    node of a well-formed list has such neighbours, so this holds for
    every linked node of every list reached by the operations. *)
Theorem C4_unlink_splices :
  (∀ checked n p s h,
     n ≠ nullptr → h !! n = Some (Links p s) →
     p ≠ nullptr → s ≠ nullptr → p ≠ n → s ≠ n →
     is_Some (h !! p) → is_Some (h !! s) →
     ∃ h', unlink checked n h = Done () h' ∧
           next_ <$> h' !! p = Some s ∧
           previous_ <$> h' !! s = Some p ∧
           h' !! n = Some (Links nullptr nullptr) ∧
           linked checked n h' = Done false h') ∧
  (∀ checked hd nodes h l n p s,
     layout hd nodes → wf hd nodes h l → n ∈ nodes →
     h !! n = Some (Links p s) → p ≠ nullptr → s ≠ nullptr →
     ∃ h', unlink checked n h = Done () h' ∧
           next_ <$> h' !! p = Some s ∧
           previous_ <$> h' !! s = Some p ∧
           h' !! n = Some (Links nullptr nullptr) ∧
           linked checked n h' = Done false h').
Proof.
  assert (∀ checked n p s h,
     n ≠ nullptr → h !! n = Some (Links p s) →
     p ≠ nullptr → s ≠ nullptr → p ≠ n → s ≠ n →
     is_Some (h !! p) → is_Some (h !! s) →
     ∃ h', unlink checked n h = Done () h' ∧
           next_ <$> h' !! p = Some s ∧
           previous_ <$> h' !! s = Some p ∧
           h' !! n = Some (Links nullptr nullptr) ∧
           linked checked n h' = Done false h') as Hgeneral.
  { intros checked n p s h Hn Hl Hp Hs Hpn Hsn [lp Hlp] [ls Hls].
    exists (unlinked n p s h).
    assert (unlinked n p s h !! n = Some (Links nullptr nullptr)) as Hn'
      by (apply lookup_unlinked_self; eauto).
    split; [apply unlink_run_linked; eauto|].
    split; [|split; [|split; [done|]]].
    - rewrite lookup_unlinked_other by done. lookup_wr.
      rewrite (decide_True (P := p = p)) by done. rewrite Hlp.
      by case_decide.
    - rewrite lookup_unlinked_other by done. lookup_wr.
      rewrite (decide_True (P := s = s)) by done. rewrite Hls.
      by case_decide.
    - by apply linked_run_null. }
  split; [exact Hgeneral|].
  intros checked hd nodes h l n p s Hlayout Hwf Hn Hl Hp Hs.
  assert (n ∈ l) as Hnl.
  { destruct (decide (n ∈ l)) as [|Hnl]; [done|].
    rewrite (wf_free _ _ _ _ Hwf n Hn Hnl) in Hl. by simplify_eq. }
  destruct (wf_neighbours hd nodes h l n p s Hlayout Hwf Hnl Hl)
    as (_ & _ & Hpn & Hsn & Hpa & Hsa).
  apply Hgeneral; try done.
  intros ->. by apply (layout_null _ _ Hlayout).
Qed.

Lemma C4_unlink_splices_witness :
  (∃ h', unlink true 2 {[ 1 := Links 3 2; 2 := Links 1 3; 3 := Links 2 1 ]}
         = Done () h' ∧
         next_ <$> h' !! 1 = Some 3 ∧
         previous_ <$> h' !! 3 = Some 1 ∧
         h' !! 2 = Some (Links nullptr nullptr) ∧
         linked true 2 h' = Done false h') ∧
  (∃ h', unlink true 2 {[ 1 := Links 2 2; 2 := Links 1 1; 3 := Links 0 0; 4 := Links 0 0 ]}
         = Done () h' ∧
         next_ <$> h' !! 1 = Some 1 ∧
         previous_ <$> h' !! 1 = Some 1 ∧
         h' !! 2 = Some (Links nullptr nullptr) ∧
         linked true 2 h' = Done false h').
Proof.
  destruct C4_unlink_splices as [Hgeneral Hreached]. split.
  - apply (Hgeneral true 2 1 3); try done; try (by eexists).
  - apply (Hreached true 1 [2; 3; 4] _ [2] 2 1 1); try done.
    + exact layout_1_234.
    + split.
      * intros x Hx. rewrite !elem_of_cons in Hx.
        destruct Hx as [->|[->|[->|[->|Hx]]]]; try (by eexists).
        by apply elem_of_nil in Hx.
      * intros x Hx. apply list_elem_of_singleton in Hx as ->. by_decide.
      * apply NoDup_singleton.
      * intros x Hx Hxl. rewrite !elem_of_cons in Hx.
        destruct Hx as [->|[->|[->|Hx]]]; [|done|done|by apply elem_of_nil in Hx].
        exfalso. apply Hxl, list_elem_of_here.
      * left. apply cycle_head. split; [reflexivity|]. split; [reflexivity|done].
    + by_decide.
Defined.

(** C5. In a checked build, [insert_after] and [link] of a node with
    a non-null pointer stop on a failed assertion; a node whose two
    pointers are null is linked into a well-formed list without any
    assertion firing, in both builds. *)
Theorem C5_double_link_asserts :
  (∀ node after h lk,
     node ≠ nullptr → h !! node = Some lk →
     previous_ lk ≠ nullptr ∨ next_ lk ≠ nullptr →
     static_double_list.insert_after true node after h = AssertionFailed) ∧
  (∀ hd node h lk,
     hd ≠ nullptr → is_Some (h !! hd) →
     node ≠ nullptr → h !! node = Some lk →
     previous_ lk ≠ nullptr ∨ next_ lk ≠ nullptr →
     static_double_list.link true hd node h = AssertionFailed) ∧
  (∀ checked hd nodes h l node,
     layout hd nodes → wf hd nodes h l →
     node ∈ nodes → h !! node = Some (Links nullptr nullptr) →
     ∃ h', static_double_list.link checked hd node h = Done () h').
Proof.
  split; [|split].
  - intros node after h lk Hnode Hlk Hlinked.
    by rewrite (insert_after_linked true node after h lk).
  - intros hd node h lk. apply link_linked.
  - intros checked hd nodes h l node Hlayout Hwf Hnode Hnull.
    assert (node ∉ l) as Hnl.
    { intros Hin.
      destruct (wf_linked_lookup hd nodes Hlayout h l node Hwf Hin)
        as (p & s & Hl & Hp & Hs).
      rewrite Hl in Hnull. by simplify_eq. }
    destruct (wf_link hd nodes Hlayout checked h l node Hwf Hnode Hnl)
      as (h' & Hrun & _).
    eauto.
Qed.

Lemma C5_double_link_asserts_witness :
  static_double_list.insert_after true 2 1
    {[ 1 := Links 2 2; 2 := Links 1 1 ]} = AssertionFailed ∧
  static_double_list.link true 1 2
    {[ 1 := Links 2 2; 2 := Links 1 1 ]} = AssertionFailed ∧
  ∃ h', static_double_list.link true 1 2 (zeroed 1 [2; 3; 4]) = Done () h'.
Proof.
  destruct C5_double_link_asserts as (Hinsert & Hlink & Hfree).
  split; [|split].
  - apply (Hinsert 2 1 _ (Links 1 1)); [done|reflexivity|by left].
  - apply (Hlink 1 2 _ (Links 1 1)); [done|by eexists|done|reflexivity|by left].
  - apply (Hfree true 1 [2; 3; 4] _ []).
    + exact layout_1_234.
    + apply wf_zeroed.
    + by_decide.
    + reflexivity.
Defined.

(** C10. A finished [unlink ()] of the node [n], with predecessor [p]
    and successor [s], leaves every other node in place, changes the
    [next_] of no node but [p] and the [previous_] of no node but [s];
    a node other than [n], [p] and [s] keeps both pointers. *)
Theorem C10_unlink_frame checked n p s h h' :
  h !! n = Some (Links p s) →
  unlink checked n h = Done () h' →
  ∀ m, m ≠ n →
    (is_Some (h' !! m) ↔ is_Some (h !! m)) ∧
    (m ≠ p → next_ <$> h' !! m = next_ <$> h !! m) ∧
    (m ≠ s → previous_ <$> h' !! m = previous_ <$> h !! m) ∧
    (m ≠ p → m ≠ s → h' !! m = h !! m).
Proof.
  intros Hl Hrun m Hm.
  destruct (unlink_Done_inv _ _ _ _ _ Hrun) as (p' & s' & Hn & Hl' & Hcase).
  rewrite Hl in Hl'. simplify_eq.
  destruct Hcase as [(_ & _ & _ & _ & ->)|(_ & -> & _)]; [|done].
  split; [apply unlinked_is_Some|].
  rewrite lookup_unlinked_other by done. lookup_wr.
  split; [|split].
  - intros Hmp. rewrite (decide_False (P := p' = m)) by done.
    case_decide; [|done]. by destruct (h !! m).
  - intros Hms. rewrite (decide_False (P := s' = m)) by done.
    case_decide; [|done]. by destruct (h !! m).
  - intros Hmp Hms. by rewrite !decide_False by done.
Qed.

Lemma C10_unlink_frame_witness :
  ∃ h', unlink true 3
          {[ 1 := Links 4 2; 2 := Links 1 3; 3 := Links 2 4; 4 := Links 3 1 ]}
        = Done () h' ∧
        (is_Some (h' !! 1) ↔ is_Some (Some (Links 4 2))) ∧
        h' !! 1 = Some (Links 4 2).
Proof.
  eexists. split; [reflexivity|].
  pose proof (C10_unlink_frame true 3 2 4
    {[ 1 := Links 4 2; 2 := Links 1 3; 3 := Links 2 4; 4 := Links 3 1 ]} _
    eq_refl eq_refl 1 ltac:(done)) as (Hdom & _ & _ & Hsame).
  split; [exact Hdom|]. apply Hsame; done.
Defined.

(** C2. On an empty static list, uninitialised or initialised,
    linking three distinct unlinked nodes [A], [B], [C] in this order
    and then iterating from [begin ()] to [end ()] visits exactly
    [A], [B], [C], in this order. *)
Theorem C2_link_tail_order checked hd A B C h fuel :
  hd ≠ nullptr → A ≠ nullptr → B ≠ nullptr → C ≠ nullptr →
  A ≠ hd → B ≠ hd → C ≠ hd → A ≠ B → A ≠ C → B ≠ C →
  h !! hd = Some (Links nullptr nullptr) ∨ h !! hd = Some (Links hd hd) →
  h !! A = Some (Links nullptr nullptr) →
  h !! B = Some (Links nullptr nullptr) →
  h !! C = Some (Links nullptr nullptr) →
  (3 ≤ fuel)%nat →
  ∃ h', (static_double_list.link checked hd A;;
         static_double_list.link checked hd B;;
         static_double_list.link checked hd C;;
         static_double_list.traverse fuel hd) h = Done (Some [A; B; C]) h'.
Proof.
  intros Hhd HA HB HC HAhd HBhd HChd HAB HAC HBC Hhead HlA HlB HlC Hfuel.
  assert (layout hd [A; B; C]) as Hlayout.
  { split; [done| | |].
    - rewrite !not_elem_of_cons. split_and!; try done. apply not_elem_of_nil.
    - rewrite !not_elem_of_cons. split_and!; try done. apply not_elem_of_nil.
    - repeat (apply NoDup_cons; split); [| |apply not_elem_of_nil|constructor].
      + rewrite !not_elem_of_cons. split_and!; try done. apply not_elem_of_nil.
      + rewrite !not_elem_of_cons. split_and!; try done. apply not_elem_of_nil. }
  assert (wf hd [A; B; C] h []) as Hwf0.
  { apply wf_empty_list; [done|]. intros x Hx.
    rewrite !elem_of_cons in Hx. destruct Hx as [->|[->|[->|Hx]]]; try done.
    by apply elem_of_nil in Hx. }
  destruct (wf_link hd _ Hlayout checked h [] A Hwf0) as (h1 & Hrun1 & Hwf1).
  { apply list_elem_of_here. }
  { apply not_elem_of_nil. }
  destruct (wf_link hd _ Hlayout checked h1 [A] B Hwf1) as (h2 & Hrun2 & Hwf2).
  { apply list_elem_of_further, list_elem_of_here. }
  { rewrite not_elem_of_cons. split; [done|apply not_elem_of_nil]. }
  destruct (wf_link hd _ Hlayout checked h2 [A; B] C Hwf2) as (h3 & Hrun3 & Hwf3).
  { do 2 apply list_elem_of_further. apply list_elem_of_here. }
  { rewrite !not_elem_of_cons. split_and!; try done. apply not_elem_of_nil. }
  exists (prepared hd h3).
  run_with Hrun1. run_with Hrun2. run_with Hrun3.
  by apply (traverse_wf hd _ Hlayout h3 [A; B; C] fuel Hwf3).
Qed.

Lemma C2_link_tail_order_witness :
  ∃ h', (static_double_list.link true 1 2;;
         static_double_list.link true 1 3;;
         static_double_list.link true 1 4;;
         static_double_list.traverse 3 1) (zeroed 1 [2; 3; 4])
        = Done (Some [2; 3; 4]) h'.
Proof.
  apply (C2_link_tail_order true 1 2 3 4 (zeroed 1 [2; 3; 4]) 3);
    try done; try reflexivity.
  by left.
Defined.

(** C6. Start from zero-filled storage and run any sequence of
    [link], [unlink], [begin] and [empty] on the nodes of the program.
    After each operation (after every prefix [take k ops]) a full
    iteration from [begin ()] to [end ()] terminates and visits as
    many nodes as are linked. A checked build stops on an assertion
    exactly when the prefix links a node that is linked already; the
    unchecked build is covered for the sequences that never do so. *)
Theorem C6_iteration_counts_linked_nodes checked hd nodes ops k :
  layout hd nodes →
  forallb (on_nodes nodes) ops = true →
  checked = true ∨ respects_contract ops = true →
  match run checked hd (take k ops) (zeroed hd nodes) with
  | Done _ h =>
      ∃ visited h',
        (∀ fuel, (length nodes ≤ fuel)%nat →
           static_double_list.traverse fuel hd h = Done (Some visited) h') ∧
        length visited = linked_count h nodes
  | AssertionFailed => checked = true ∧ respects_contract (take k ops) = false
  | Undefined => False
  end.
Proof.
  intros Hlayout Hon Hcontract.
  pose proof (run_refines hd nodes Hlayout (zeroed hd nodes) [] (take k ops)
                (wf_zeroed hd nodes) (forallb_take _ k ops Hon)) as Hrefines.
  destruct (abstract_run [] (take k ops)) as [l|] eqn:Habs.
  - destruct (Hrefines checked) as (h & Hrun & Hwf). rewrite Hrun.
    exists l, (prepared hd h). split.
    + intros fuel Hfuel. apply (traverse_wf hd nodes Hlayout h l fuel Hwf).
      pose proof (wf_length hd nodes Hlayout h l Hwf). lia.
    + symmetry. by apply (linked_count_wf hd nodes Hlayout).
  - assert (respects_contract (take k ops) = false) as Hbroken.
    { unfold respects_contract. rewrite Habs. apply bool_decide_eq_false_2.
      by intros [? [=]]. }
    assert (checked = true) as ->.
    { destruct Hcontract as [?|Hok]; [done|].
      apply (respects_contract_take k) in Hok. congruence. }
    by rewrite Hrefines.
Qed.

Lemma C6_iteration_counts_linked_nodes_witness :
  match run true 1 (take 4 [OpLink 2; OpLink 3; OpUnlink 2; OpLink 4; OpLink 3])
          (zeroed 1 [2; 3; 4]) with
  | Done _ h =>
      ∃ visited h',
        (∀ fuel, (length [2; 3; 4] ≤ fuel)%nat →
           static_double_list.traverse fuel 1 h = Done (Some visited) h') ∧
        length visited = linked_count h [2; 3; 4]
  | AssertionFailed =>
      true = true ∧
      respects_contract (take 4 [OpLink 2; OpLink 3; OpUnlink 2; OpLink 4; OpLink 3])
      = false
  | Undefined => False
  end.
Proof.
  apply (C6_iteration_counts_linked_nodes true 1 [2; 3; 4]
           [OpLink 2; OpLink 3; OpUnlink 2; OpLink 4; OpLink 3] 4).
  - exact layout_1_234.
  - reflexivity.
  - by left.
Defined.

(** C9. In every memory reached from zero-filled storage by [link],
    [unlink], [begin] and [empty] on the nodes of the program, the
    head and every node have both pointers null or both pointers
    non-null; and in a checked build [linked ()] returns false only on
    a node whose two pointers are null. *)
Theorem C9_no_half_linked_node :
  (∀ checked hd nodes ops h,
     layout hd nodes →
     forallb (on_nodes nodes) ops = true →
     checked = true ∨ respects_contract ops = true →
     run checked hd ops (zeroed hd nodes) = Done () h →
     ∀ x lx, x ∈ hd :: nodes → h !! x = Some lx →
       (previous_ lx = nullptr ∧ next_ lx = nullptr) ∨
       (previous_ lx ≠ nullptr ∧ next_ lx ≠ nullptr)) ∧
  (∀ n h h',
     linked true n h = Done false h' →
     h' = h ∧ h !! n = Some (Links nullptr nullptr)).
Proof.
  split.
  - intros checked hd nodes ops h Hlayout Hon Hcontract Hrun x lx Hx Hlx.
    pose proof (run_refines hd nodes Hlayout (zeroed hd nodes) [] ops
                  (wf_zeroed hd nodes) Hon) as Hrefines.
    destruct (abstract_run [] ops) as [l|] eqn:Habs.
    + destruct (Hrefines checked) as (h1 & Hrun1 & Hwf).
      rewrite Hrun in Hrun1. simplify_eq.
      by apply (wf_symmetric hd nodes Hlayout h1 l x lx Hwf).
    + destruct Hcontract as [->|Hok].
      * rewrite Hrefines in Hrun. done.
      * unfold respects_contract in Hok. rewrite Habs in Hok.
        apply bool_decide_eq_true in Hok as [? [=]].
  - intros n h h' Hrun.
    destruct (decide (n = nullptr)) as [->|Hn].
    { rewrite linked_run_invalid in Hrun by by left. done. }
    destruct (h !! n) as [[p s]|] eqn:Hl; cycle 1.
    { rewrite linked_run_invalid in Hrun by by right. done. }
    rewrite (linked_run true n h _ Hn Hl) in Hrun. cbn [previous_ next_] in Hrun.
    repeat case_bool_decide; simpl in Hrun; simplify_eq; done.
Qed.

Lemma C9_no_half_linked_node_witness :
  (∀ x lx, x ∈ 1 :: [2; 3; 4] →
     ({[ 1 := Links 3 3; 2 := Links 0 0; 3 := Links 1 1; 4 := Links 0 0 ]} : heap) !! x
     = Some lx →
     (previous_ lx = nullptr ∧ next_ lx = nullptr) ∨
     (previous_ lx ≠ nullptr ∧ next_ lx ≠ nullptr)) ∧
  zeroed 1 [2] = zeroed 1 [2] ∧ zeroed 1 [2] !! 2 = Some (Links nullptr nullptr).
Proof.
  destruct C9_no_half_linked_node as [Hreach Hlinked]. split.
  - apply (Hreach false 1 [2; 3; 4] [OpLink 2; OpLink 3; OpUnlink 2]).
    + exact layout_1_234.
    + reflexivity.
    + by right.
    + reflexivity.
  - apply (Hlinked 2). reflexivity.
Defined.

(** C7. The constructor of a dynamic list leaves it empty, whatever
    its storage held; in a checked build the destructor stops on a
    failed assertion when nodes (at non-null addresses) are linked
    into the list — in particular right after the construction of the
    list and the [link] of a node — and finishes, in both builds, on
    an empty list. *)
Theorem C7_dynamic_list_lifecycle :
  (∀ hd h,
     hd ≠ nullptr → is_Some (h !! hd) →
     ∃ h', double_list.constructor hd h = Done () h' ∧
           double_list.empty hd h' = Done true h') ∧
  (∀ hd h l,
     hd ≠ nullptr → hd ∉ l → nullptr ∉ l → cycle h (hd :: l) → l ≠ [] →
     double_list.destructor true hd h = AssertionFailed) ∧
  (∀ hd node h,
     hd ≠ nullptr → is_Some (h !! hd) →
     node ≠ nullptr → node ≠ hd → h !! node = Some (Links nullptr nullptr) →
     (double_list.constructor hd;;
      double_list.link true hd node;;
      double_list.destructor true hd) h = AssertionFailed) ∧
  (∀ checked hd h,
     hd ≠ nullptr → cycle h [hd] →
     double_list.destructor checked hd h = Done () h).
Proof.
  split; [|split; [|split]].
  - intros hd h Hhd Halloc. exists (cleared hd h).
    split; [by apply double_list_clear_run|].
    rewrite (double_list_empty_run hd _ _ Hhd (lookup_cleared_head hd h Halloc)).
    cbn [next_ previous_]. by rewrite (bool_decide_eq_true_2 (hd = hd)) by done.
  - intros hd h l Hhd Hnotin Hnonnull Hring Hne.
    apply cycle_head in Hring as [Hl _].
    unfold double_list.destructor.
    run_with (double_list_empty_run hd h _ Hhd Hl). cbn [next_ previous_].
    assert (first_or hd l ≠ hd) as Hfirst.
    { destruct l as [|x l]; [done|]. simpl. intros ->.
      apply Hnotin, list_elem_of_here. }
    assert (last_or hd l ≠ nullptr) as Hlast.
    { intros Hnull. apply Hnonnull. rewrite <- Hnull. by apply last_or_elem. }
    rewrite (bool_decide_eq_false_2 _ Hfirst), (bool_decide_eq_false_2 _ Hlast).
    done.
  - intros hd node h Hhd Halloc Hnode Hne Hl.
    unfold double_list.constructor.
    run_with (double_list_clear_run hd h Hhd Halloc).
    pose proof (lookup_cleared_head hd h Halloc) as Hhead.
    assert (cleared hd h !! node = Some (Links nullptr nullptr)) as Hl'
      by by rewrite lookup_cleared_ne.
    assert (double_list.link true hd node (cleared hd h) =
            Done () (inserted node hd hd (cleared hd h))) as Hlink.
    { unfold double_list.link, double_list.tail, static_double_list.tail.
      run_with (previous_Done _ _ _ Hhd Hhead). cbn [previous_].
      apply (insert_after_run true node hd _ (Links hd hd)); try done.
      all: cbn [next_]; eauto. }
    run_with Hlink. unfold double_list.destructor.
    assert (inserted node hd hd (cleared hd h) !! hd = Some (Links node node)) as Hhead'.
    { rewrite lookup_inserted_other by done. lookup_wr.
      rewrite !decide_True by done. by rewrite Hhead. }
    run_with (double_list_empty_run hd _ _ Hhd Hhead'). cbn [next_ previous_].
    by rewrite (bool_decide_eq_false_2 (node = hd)),
               (bool_decide_eq_false_2 (node = nullptr)) by done.
  - intros checked hd h Hhd Hring. apply cycle_head in Hring as [Hl _].
    unfold double_list.destructor.
    run_with (double_list_empty_run hd h _ Hhd Hl). cbn [next_ previous_ first_or].
    rewrite (bool_decide_eq_true_2 (hd = hd)) by done. apply assert_true.
Qed.

Lemma C7_dynamic_list_lifecycle_witness :
  (∃ h', double_list.constructor 1 {[ 1 := Links 7 9 ]} = Done () h' ∧
         double_list.empty 1 h' = Done true h') ∧
  double_list.destructor true 1 {[ 1 := Links 2 2; 2 := Links 1 1 ]}
  = AssertionFailed ∧
  (double_list.constructor 1;;
   double_list.link true 1 2;;
   double_list.destructor true 1) {[ 1 := Links 7 9; 2 := Links 0 0 ]}
  = AssertionFailed ∧
  double_list.destructor true 1 {[ 1 := Links 1 1 ]} = Done () {[ 1 := Links 1 1 ]}.
Proof.
  destruct C7_dynamic_list_lifecycle as (Hctor & Hfull & Hlinked & Hempty).
  split; [|split; [|split]].
  - apply Hctor; [done|by eexists].
  - apply (Hfull 1 _ [2]); [done|by_decide|by_decide| |done].
    apply cycle_head. split; [reflexivity|]. split; [reflexivity|done].
  - apply Hlinked; [done|by eexists|done|done|reflexivity].
  - apply Hempty; [done|]. apply cycle_head. split; [reflexivity|done].
Defined.

(** C8. Link the object at address [object], whose links member lies
    [offset] bytes into it, at the tail of an intrusive list that
    holds the nodes [l]. Whatever the offset, the address recovered
    from the member is [object]; a full iteration yields the
    addresses of the objects in order, ending with [object];
    [unlink_tail ()] returns [object]; and when the list was empty the
    iterator returned by [begin ()] dereferences to [object] and
    [unlink_head ()] returns [object]. *)
Theorem C8_intrusive_address_recovery checked offset hd nodes h l object :
  layout hd nodes → wf hd nodes h l →
  intrusive_list.member offset object ∈ nodes →
  intrusive_list.member offset object ∉ l →
  intrusive_list.get_pointer offset (intrusive_list.member offset object) = object ∧
  ∃ h1,
    intrusive_list.link_tail checked offset hd object h = Done () h1 ∧
    (∀ fuel, (length nodes ≤ fuel)%nat →
       ∃ visited h2,
         static_double_list.traverse fuel hd h1 = Done (Some visited) h2 ∧
         intrusive_list.dereference offset <$> visited =
         (intrusive_list.dereference offset <$> l) ++ [object]) ∧
    (∃ h3, intrusive_list.unlink_tail checked offset hd h1 = Done object h3) ∧
    (l = [] →
       (∃ h2 it, intrusive_list.begin hd h1 = Done it h2 ∧
                 intrusive_list.dereference offset it = object) ∧
       (∃ h3, intrusive_list.unlink_head checked offset hd h1 = Done object h3)).
Proof.
  intros Hlayout Hwf Hin Hnotin.
  pose proof (layout_head _ _ Hlayout) as Hhd.
  set (m := intrusive_list.member offset object) in *.
  assert (intrusive_list.get_pointer offset m = object) as Hback
    by apply get_pointer_member.
  split; [done|].
  destruct (wf_link hd nodes Hlayout checked h l m Hwf Hin Hnotin)
    as (h1 & Hrun & Hwf1).
  exists h1. split; [done|].
  assert (l ++ [m] ≠ []) as Hne by by destruct l.
  pose proof (wf_cycle_nonempty hd nodes h1 _ Hwf1 Hne) as Hring.
  change (hd :: l ++ [m]) with (hd :: (l ++ [m])) in Hring.
  apply cycle_head in Hring as [Hhead _].
  split; [|split].
  - intros fuel Hfuel. exists (l ++ [m]), (prepared hd h1). split.
    + apply (traverse_wf hd nodes Hlayout h1 _ fuel Hwf1).
      pose proof (wf_length hd nodes Hlayout h1 _ Hwf1). lia.
    + rewrite fmap_app. simpl. unfold intrusive_list.dereference at 2.
      by rewrite Hback.
  - assert (static_double_list.tail hd h1 = Done m h1) as Htail.
    { unfold static_double_list.tail.
      rewrite (previous_Done _ _ _ Hhd Hhead). cbn [previous_].
      by rewrite last_or_app. }
    destruct (unlink_end_run hd nodes Hlayout checked offset h1 _
                static_double_list.tail m Hwf1 Hne) as (h3 & Hun); [|done|].
    { apply elem_of_app. right. apply list_elem_of_here. }
    exists h3. unfold intrusive_list.unlink_tail. by rewrite Hun, Hback.
  - intros ->.
    assert (static_double_list.head hd h1 = Done m h1) as Hfirst.
    { unfold static_double_list.head.
      by rewrite (next_Done _ _ _ Hhd Hhead). }
    split.
    + destruct (begin_run hd h1 Hhd ltac:(eauto)) as (lh & Hlh & Hbegin).
      destruct (wf_prepared hd nodes Hlayout h1 _ Hwf1) as [_ Hring'].
      change (hd :: [] ++ [m]) with (hd :: [m]) in Hring'.
      apply cycle_head in Hring' as [Hhead' _].
      rewrite Hhead' in Hlh. simplify_eq.
      exists (prepared hd h1), m. split; [done|].
      unfold intrusive_list.dereference. done.
    + destruct (unlink_end_run hd nodes Hlayout checked offset h1 _
                  static_double_list.head m Hwf1 Hne) as (h3 & Hun); [|done|].
      { apply list_elem_of_here. }
      exists h3. unfold intrusive_list.unlink_head. by rewrite Hun, Hback.
Qed.

Lemma C8_intrusive_address_recovery_witness :
  intrusive_list.get_pointer 8 (intrusive_list.member 8 (-5)) = -5 ∧
  ∃ h1,
    intrusive_list.link_tail true 8 1 (-5) (zeroed 1 [2; 3; 4]) = Done () h1 ∧
    (∀ fuel, (length [2; 3; 4] ≤ fuel)%nat →
       ∃ visited h2,
         static_double_list.traverse fuel 1 h1 = Done (Some visited) h2 ∧
         intrusive_list.dereference 8 <$> visited =
         (intrusive_list.dereference 8 <$> @nil Z) ++ [-5]) ∧
    (∃ h3, intrusive_list.unlink_tail true 8 1 h1 = Done (-5) h3) ∧
    (@nil Z = [] →
       (∃ h2 it, intrusive_list.begin 1 h1 = Done it h2 ∧
                 intrusive_list.dereference 8 it = -5) ∧
       (∃ h3, intrusive_list.unlink_head true 8 1 h1 = Done (-5) h3)).
Proof.
  apply (C8_intrusive_address_recovery true 8 1 [2; 3; 4] (zeroed 1 [2; 3; 4]) [] (-5)).
  - exact layout_1_234.
  - apply wf_zeroed.
  - by_decide.
  - by_decide.
Defined.

(** * Further properties of the code *)

(** X1. The first-use initialisation of [begin ()] runs once: calling
    [begin ()] twice returns the same iterator and leaves the same
    memory as calling it once, on every memory. *)
Theorem X1_begin_idempotent hd h :
  (static_double_list.begin hd;; static_double_list.begin hd) h =
  static_double_list.begin hd h.
Proof.
  destruct (decide (hd = nullptr)) as [Hhd|Hhd].
  { rewrite !(begin_Undefined hd h) by by left. by apply bind_Undefined, begin_Undefined; left. }
  destruct (h !! hd) as [l|] eqn:Hl; cycle 1.
  { rewrite !(begin_Undefined hd h) by by right. by apply bind_Undefined, begin_Undefined; right. }
  destruct (begin_run hd h Hhd ltac:(eauto)) as (lh & Hlh & Hbegin).
  run_with Hbegin. rewrite Hbegin.
  destruct (begin_run hd (prepared hd h) Hhd ltac:(eauto)) as (lh' & Hlh' & Hbegin').
  rewrite prepared_idem in Hlh', Hbegin' by done.
  rewrite Hlh in Hlh'. by simplify_eq.
Qed.

(** X2. On every memory that holds the head, [empty ()] changes
    nothing and returns true exactly when [begin ()] returns the
    iterator [end ()]. *)
Theorem X2_empty_iff_begin_is_end hd h :
  hd ≠ nullptr → is_Some (h !! hd) →
  ∃ e b h',
    static_double_list.empty hd h = Done e h ∧
    static_double_list.begin hd h = Done b h' ∧
    static_double_list.end_ hd h' = Done hd h' ∧
    (e = true ↔ b = hd).
Proof.
  intros Hhd [l Hl].
  destruct (begin_run hd h Hhd ltac:(eauto)) as (lh & Hlh & Hbegin).
  eexists _, (next_ lh), (prepared hd h).
  split; [by apply empty_run|]. split; [done|]. split; [done|].
  unfold prepared in Hlh. rewrite Hl in Hlh.
  destruct (bool_decide (previous_ l = nullptr) && bool_decide (next_ l = nullptr)) eqn:E.
  - rewrite lookup_cleared_head in Hlh by eauto. simplify_eq. cbn [next_].
    by rewrite orb_true_r.
  - rewrite Hl in Hlh. simplify_eq. rewrite orb_false_r.
    by rewrite bool_decide_eq_true.
Qed.

Lemma X2_empty_iff_begin_is_end_witness :
  ∃ e b h',
    static_double_list.empty 1 {[ 1 := Links 2 2; 2 := Links 1 1 ]}
    = Done e {[ 1 := Links 2 2; 2 := Links 1 1 ]} ∧
    static_double_list.begin 1 {[ 1 := Links 2 2; 2 := Links 1 1 ]} = Done b h' ∧
    static_double_list.end_ 1 h' = Done 1 h' ∧
    (e = true ↔ b = 1).
Proof. apply X2_empty_iff_begin_is_end; [done|by eexists]. Defined.

(** X3. [linked ()] never writes: whenever it returns, in either
    build, the memory is unchanged and the result says whether both
    pointers of the node are non-null. *)
Theorem X3_linked_reads_both_pointers checked n h b h' :
  linked checked n h = Done b h' → h' = h ∧ b = is_linked h n.
Proof.
  intros Hrun.
  destruct (decide (n = nullptr)) as [->|Hn].
  { rewrite linked_run_invalid in Hrun by by left. done. }
  destruct (h !! n) as [l|] eqn:Hl; cycle 1.
  { rewrite linked_run_invalid in Hrun by by right. done. }
  rewrite (linked_run checked n h l Hn Hl) in Hrun.
  unfold is_linked. rewrite Hl.
  destruct (bool_decide (next_ l ≠ nullptr) && bool_decide (previous_ l ≠ nullptr));
    [by simplify_eq|].
  destruct (checked && _); by simplify_eq.
Qed.

Lemma X3_linked_reads_both_pointers_witness :
  {[ 1 := Links 2 2; 2 := Links 1 1 ]} = ({[ 1 := Links 2 2; 2 := Links 1 1 ]} : heap) ∧
  true = is_linked {[ 1 := Links 2 2; 2 := Links 1 1 ]} 2.
Proof. apply (X3_linked_reads_both_pointers true 2). reflexivity. Defined.

(** X4. A node with exactly one null pointer: with assertions enabled
    [linked ()] and [unlink ()] stop on the failed assertion; without
    them [linked ()] returns false and [unlink ()] returns without
    repairing or changing anything. *)
Theorem X4_half_linked_node n h l :
  n ≠ nullptr → h !! n = Some l →
  (previous_ l = nullptr ∧ next_ l ≠ nullptr) ∨
  (previous_ l ≠ nullptr ∧ next_ l = nullptr) →
  linked true n h = AssertionFailed ∧
  unlink true n h = AssertionFailed ∧
  linked false n h = Done false h ∧
  unlink false n h = Done () h.
Proof.
  intros Hn Hl Hhalf.
  assert (bool_decide (next_ l ≠ nullptr) && bool_decide (previous_ l ≠ nullptr) = false) as E1.
  { apply andb_false_iff. rewrite !bool_decide_eq_false. tauto. }
  assert (bool_decide (next_ l = nullptr) && bool_decide (previous_ l = nullptr) = false) as E2.
  { apply andb_false_iff. rewrite !bool_decide_eq_false. tauto. }
  split_and!.
  - by rewrite (linked_run true n h l Hn Hl), E1, E2.
  - rewrite (unlink_run_unlinked true n h l Hn Hl) by tauto. by rewrite E2.
  - by rewrite (linked_run false n h l Hn Hl), E1.
  - by rewrite (unlink_run_unlinked false n h l Hn Hl) by tauto.
Qed.

Lemma X4_half_linked_node_witness :
  linked true 2 {[ 1 := Links 1 1; 2 := Links 0 1 ]} = AssertionFailed ∧
  unlink true 2 {[ 1 := Links 1 1; 2 := Links 0 1 ]} = AssertionFailed ∧
  linked false 2 {[ 1 := Links 1 1; 2 := Links 0 1 ]}
  = Done false {[ 1 := Links 1 1; 2 := Links 0 1 ]} ∧
  unlink false 2 {[ 1 := Links 1 1; 2 := Links 0 1 ]}
  = Done () {[ 1 := Links 1 1; 2 := Links 0 1 ]}.
Proof.
  apply (X4_half_linked_node 2 _ (Links 0 1)); [done|reflexivity|].
  left. by split.
Defined.

(** X5. Round trip: on a well-formed list, linking an unlinked node
    and unlinking it again gives back the memory as it was once the
    head is initialised; when the head was initialised already, the
    memory is exactly the one before the [link]. *)
Theorem X5_link_unlink_round_trip checked hd nodes h l n :
  layout hd nodes → wf hd nodes h l →
  n ∈ nodes → h !! n = Some (Links nullptr nullptr) →
  (static_double_list.link checked hd n;; unlink checked n) h
  = Done () (prepared hd h) ∧
  (cycle h (hd :: l) →
   (static_double_list.link checked hd n;; unlink checked n) h = Done () h).
Proof.
  intros Hlayout Hwf Hn Hnull.
  pose proof (layout_head _ _ Hlayout) as Hhd.
  assert (n ∉ l) as Hnl.
  { intros Hin.
    destruct (wf_linked_lookup hd nodes Hlayout h l n Hwf Hin)
      as (p & s & Hl & Hp & Hs).
    rewrite Hl in Hnull. by simplify_eq. }
  assert (n ≠ nullptr) as Hn0 by (intros ->; by apply (layout_null _ _ Hlayout)).
  assert (n ≠ hd) as Hnhd by (intros ->; by apply (layout_sep _ _ Hlayout)).
  destruct (wf_prepared hd nodes Hlayout h l Hwf) as [Hwf' Hring].
  apply cycle_head in Hring as [Hlh Hseg].
  set (t := last_or hd l) in *.
  assert (t ∈ hd :: l) as Ht.
  { unfold t. destruct (last_or_cases hd l) as [->|?];
      [apply list_elem_of_here|by apply list_elem_of_further]. }
  assert (t ≠ n) as Htn.
  { intros Heq. rewrite Heq in Ht. apply elem_of_cons in Ht as [?|?]; done. }
  assert (t ≠ nullptr) as Ht0
    by by apply (wf_elem_nonnull hd nodes Hlayout _ l _ Hwf').
  destruct (seg_last_lookup (prepared hd h) t (hd :: l) hd) as [p Hla]; [done|done|].
  change (last_or t (hd :: l)) with t in Hla.
  assert (prepared hd h !! n = Some (Links nullptr nullptr)) as Hnull'
    by by rewrite lookup_prepared_ne.
  assert ((static_double_list.link checked hd n;; unlink checked n) h
          = Done () (prepared hd h)) as Hround.
  { run_with (wf_link_run hd nodes Hlayout checked h l n Hwf Hn Hnl). fold t.
    rewrite (unlink_run_linked checked n _ t hd); try done.
    - f_equal.
      by apply (unlinked_inserted n t hd _ (Links t (first_or hd l)) (Links p hd)).
    - apply lookup_inserted_node; [done|done|eauto].
    - rewrite inserted_is_Some. eauto.
    - rewrite inserted_is_Some. eauto. }
  split; [done|].
  intros Hcycle. rewrite Hround. f_equal.
  apply cycle_head in Hcycle as [Hhead _].
  unfold prepared. rewrite Hhead. cbn [previous_ next_].
  by rewrite (bool_decide_eq_false_2 (last_or hd l = nullptr)) by done.
Qed.

Lemma X5_link_unlink_round_trip_witness :
  (static_double_list.link true 1 4;; unlink true 4)
    {[ 1 := Links 3 2; 2 := Links 1 3; 3 := Links 2 1; 4 := Links 0 0 ]}
  = Done () {[ 1 := Links 3 2; 2 := Links 1 3; 3 := Links 2 1; 4 := Links 0 0 ]}.
Proof.
  assert (wf 1 [2; 3; 4]
            {[ 1 := Links 3 2; 2 := Links 1 3; 3 := Links 2 1; 4 := Links 0 0 ]}
            [2; 3]) as Hwf.
  { apply (run_wf 1 [2; 3; 4] layout_1_234 true [OpLink 2; OpLink 3]);
      reflexivity. }
  destruct (X5_link_unlink_round_trip true 1 [2; 3; 4] _ [2; 3] 4
              layout_1_234 Hwf ltac:(by_decide) eq_refl) as [_ Hsame].
  apply Hsame. apply cycle_head. split; [reflexivity|].
  split; [reflexivity|]. split; [reflexivity|done].
Defined.

(** X6. Iteration order. After any sequence of operations that never
    links a linked node, a full iteration visits exactly the nodes
    that are linked, each once, in the order in which they were
    linked: [link] appends at the tail and [unlink] removes the node
    and keeps the order of the others. *)
Theorem X6_iteration_order checked hd nodes ops l :
  layout hd nodes →
  forallb (on_nodes nodes) ops = true →
  abstract_run [] ops = Some l →
  ∃ h, run checked hd ops (zeroed hd nodes) = Done () h ∧
       (∀ fuel, (length nodes ≤ fuel)%nat →
          ∃ h', static_double_list.traverse fuel hd h = Done (Some l) h') ∧
       NoDup l ∧
       (∀ x, x ∈ nodes → x ∈ l ↔ is_linked h x = true).
Proof.
  intros Hlayout Hon Habs.
  pose proof (run_refines hd nodes Hlayout (zeroed hd nodes) [] ops
                (wf_zeroed hd nodes) Hon) as Hrefines.
  rewrite Habs in Hrefines. destruct (Hrefines checked) as (h & Hrun & Hwf).
  exists h. split; [done|]. split; [|split].
  - intros fuel Hfuel. exists (prepared hd h).
    apply (traverse_wf hd nodes Hlayout h l fuel Hwf).
    pose proof (wf_length hd nodes Hlayout h l Hwf). lia.
  - apply (wf_nodup _ _ _ _ Hwf).
  - intros x Hx. symmetry. by apply (wf_is_linked hd nodes Hlayout h l x Hwf).
Qed.

Lemma X6_iteration_order_witness :
  ∃ h, run true 1 [OpLink 2; OpLink 3; OpLink 4; OpUnlink 3; OpLink 3]
         (zeroed 1 [2; 3; 4]) = Done () h ∧
       (∀ fuel, (length [2; 3; 4] ≤ fuel)%nat →
          ∃ h', static_double_list.traverse fuel 1 h = Done (Some [2; 4; 3]) h') ∧
       NoDup [2; 4; 3] ∧
       (∀ x, x ∈ [2; 3; 4] → x ∈ [2; 4; 3] ↔ is_linked h x = true).
Proof.
  apply (X6_iteration_order true 1 [2; 3; 4]
           [OpLink 2; OpLink 3; OpLink 4; OpUnlink 3; OpLink 3] [2; 4; 3]).
  - exact layout_1_234.
  - reflexivity.
  - reflexivity.
Defined.

(** X7. [insert_after (n, after)] on an initialised list puts the
    unlinked node [n] immediately behind [after] in the iteration
    order, [after] being the head (then [n] becomes the first node)
    or any node of the list. *)
Theorem X7_insert_after_position checked hd nodes h l1 l2 n fuel :
  layout hd nodes → wf hd nodes h (l1 ++ l2) → cycle h (hd :: l1 ++ l2) →
  n ∈ nodes → n ∉ l1 ++ l2 → (length nodes ≤ fuel)%nat →
  ∃ h' h'',
    static_double_list.insert_after checked n (last_or hd l1) h = Done () h' ∧
    static_double_list.traverse fuel hd h' = Done (Some (l1 ++ n :: l2)) h''.
Proof.
  intros Hlayout Hwf Hring Hn Hnl Hfuel.
  destruct (wf_insert_after hd nodes Hlayout checked h l1 l2 n Hwf Hring Hn Hnl)
    as [Hrun Hwf'].
  eexists _, _. split; [exact Hrun|].
  apply (traverse_wf hd nodes Hlayout _ _ fuel Hwf').
  pose proof (wf_length hd nodes Hlayout _ _ Hwf'). lia.
Qed.

Lemma X7_insert_after_position_witness :
  ∃ h' h'',
    static_double_list.insert_after true 4 (last_or 1 [2])
      {[ 1 := Links 3 2; 2 := Links 1 3; 3 := Links 2 1; 4 := Links 0 0 ]}
    = Done () h' ∧
    static_double_list.traverse 3 1 h' = Done (Some ([2] ++ 4 :: [3])) h''.
Proof.
  apply (X7_insert_after_position true 1 [2; 3; 4] _ [2] [3] 4 3).
  - exact layout_1_234.
  - apply (run_wf 1 [2; 3; 4] layout_1_234 true [OpLink 2; OpLink 3]);
      reflexivity.
  - apply cycle_head. split; [reflexivity|].
    split; [reflexivity|]. split; [reflexivity|done].
  - by_decide.
  - by_decide.
  - simpl. lia.
Defined.

(** X8. [insert_after (node, after)] behind a position that is not
    linked ([after->next ()] is null): with assertions enabled the
    third assertion stops the call; without them the call dereferences
    the null pointer. *)
Theorem X8_insert_after_unlinked_position node after h la :
  node ≠ nullptr → h !! node = Some (Links nullptr nullptr) →
  after ≠ nullptr → h !! after = Some la → next_ la = nullptr →
  static_double_list.insert_after true node after h = AssertionFailed ∧
  static_double_list.insert_after false node after h = Undefined.
Proof.
  intros Hnode Hl Hafter Hla Hnext. split.
  - unfold static_double_list.insert_after.
    run_with (previous_Done _ _ _ Hnode Hl). cbn [previous_].
    run_with (assert_true true h).
    run_with (next_Done _ _ _ Hnode Hl). cbn [next_].
    run_with (assert_true true h).
    run_with (next_Done _ _ _ Hafter Hla). rewrite Hnext.
    by apply bind_AssertionFailed.
  - unfold static_double_list.insert_after.
    run_with (previous_Done _ _ _ Hnode Hl).
    run_with (assert_unchecked (bool_decide (previous_ (Links nullptr nullptr) = nullptr)) h).
    run_with (next_Done _ _ _ Hnode Hl).
    run_with (assert_unchecked (bool_decide (next_ (Links nullptr nullptr) = nullptr)) h).
    run_with (next_Done _ _ _ Hafter Hla).
    run_with (assert_unchecked (bool_decide (next_ la ≠ nullptr)) h).
    run_with (set_previous_Done node after h Hnode (ltac:(eauto))).
    assert (∃ la1, wr_prev node after h !! after = Some la1 ∧ next_ la1 = nullptr)
      as (la1 & Hla1 & Hnext1).
    { rewrite lookup_wr_prev, Hla. case_decide; eexists; split; done. }
    run_with (next_Done _ _ _ Hafter Hla1). rewrite Hnext1.
    assert (is_Some (wr_prev node after h !! node)) as Hn1.
    { rewrite wr_prev_is_Some. eauto. }
    run_with (set_next_Done node nullptr _ Hnode Hn1).
    assert (∃ la2, wr_next node nullptr (wr_prev node after h) !! after = Some la2 ∧
                   next_ la2 = nullptr) as (la2 & Hla2 & Hnext2).
    { rewrite lookup_wr_next, Hla1. case_decide; eexists; split; done. }
    run_with (next_Done _ _ _ Hafter Hla2). rewrite Hnext2.
    apply bind_Undefined, set_previous_Undefined. by left.
Qed.

Lemma X8_insert_after_unlinked_position_witness :
  static_double_list.insert_after true 2 3
    {[ 1 := Links 1 1; 2 := Links 0 0; 3 := Links 0 0 ]} = AssertionFailed ∧
  static_double_list.insert_after false 2 3
    {[ 1 := Links 1 1; 2 := Links 0 0; 3 := Links 0 0 ]} = Undefined.
Proof.
  apply (X8_insert_after_unlinked_position 2 3 _ (Links 0 0));
    try done; reflexivity.
Defined.

(** X9. The two directions of the list agree: in every memory reached
    by the operations, a head or node with a non-null [previous_]
    is the [next_] of its predecessor and the [previous_] of its
    successor. *)
Theorem X9_neighbours_point_back checked hd nodes ops h x p s :
  layout hd nodes →
  forallb (on_nodes nodes) ops = true →
  checked = true ∨ respects_contract ops = true →
  run checked hd ops (zeroed hd nodes) = Done () h →
  x ∈ hd :: nodes → h !! x = Some (Links p s) → p ≠ nullptr →
  next_ <$> h !! p = Some x ∧ previous_ <$> h !! s = Some x.
Proof.
  intros Hlayout Hon Hcontract Hrun Hx Hl Hp.
  destruct (abstract_run [] ops) as [l|] eqn:Habs; cycle 1.
  { pose proof (run_refines hd nodes Hlayout (zeroed hd nodes) [] ops
                  (wf_zeroed hd nodes) Hon) as Hrefines.
    rewrite Habs in Hrefines. destruct Hcontract as [->|Hok].
    - rewrite Hrefines in Hrun. done.
    - unfold respects_contract in Hok. rewrite Habs in Hok.
      apply bool_decide_eq_true in Hok as [? [=]]. }
  pose proof (run_wf hd nodes Hlayout checked ops l h Hon Habs Hrun) as Hwf.
  assert (cycle h (hd :: l) ∧ x ∈ hd :: l) as [Hring Hxl].
  { apply elem_of_cons in Hx as [->|Hx].
    - split; [|apply list_elem_of_here].
      destruct (wf_ring _ _ _ _ Hwf) as [?|[_ Hnull]]; [done|].
      rewrite Hnull in Hl. by simplify_eq.
    - assert (x ∈ l) as Hxl.
      { destruct (decide (x ∈ l)) as [|Hxl]; [done|].
        rewrite (wf_free _ _ _ _ Hwf x Hx Hxl) in Hl. by simplify_eq. }
      split; [|by apply list_elem_of_further].
      apply (wf_cycle_nonempty hd nodes h l Hwf). intros ->.
      by apply elem_of_nil in Hxl. }
  by apply (wf_inverse_neighbours hd nodes h l x p s Hwf Hring Hxl).
Qed.

Lemma X9_neighbours_point_back_witness :
  next_ <$> ({[ 1 := Links 3 2; 2 := Links 1 3; 3 := Links 2 1; 4 := Links 0 0 ]} : heap) !! 2
  = Some 3 ∧
  previous_ <$> ({[ 1 := Links 3 2; 2 := Links 1 3; 3 := Links 2 1; 4 := Links 0 0 ]} : heap) !! 1
  = Some 3.
Proof.
  apply (X9_neighbours_point_back true 1 [2; 3; 4] [OpLink 2; OpLink 3] _ 3 2 1).
  - exact layout_1_234.
  - reflexivity.
  - by left.
  - reflexivity.
  - by_decide.
  - reflexivity.
  - done.
Defined.

(** X10. [clear ()] of the list rewrites the head only: whatever the
    list held, afterwards the head points at itself, [empty ()]
    returns true, a full iteration visits nothing, and every other
    node keeps its pointers. *)
Theorem X10_clear_resets_head_only hd h :
  hd ≠ nullptr → is_Some (h !! hd) →
  ∃ h', static_double_list.clear hd h = Done () h' ∧
        h' !! hd = Some (Links hd hd) ∧
        (∀ m, m ≠ hd → h' !! m = h !! m) ∧
        static_double_list.empty hd h' = Done true h' ∧
        (∀ fuel, static_double_list.traverse fuel hd h' = Done (Some []) h').
Proof.
  intros Hhd Halloc. exists (cleared hd h).
  pose proof (lookup_cleared_head hd h Halloc) as Hhead.
  split; [by apply list_clear_run|]. split; [done|].
  split; [intros m Hm; by apply lookup_cleared_ne|].
  assert (prepared hd (cleared hd h) = cleared hd h) as Hprep.
  { unfold prepared. rewrite Hhead. cbn [previous_ next_].
    by rewrite (bool_decide_eq_false_2 (hd = nullptr)) by done. }
  split.
  - rewrite (empty_run hd _ _ Hhd Hhead). cbn [next_].
    by rewrite (bool_decide_eq_true_2 (hd = hd)) by done.
  - intros fuel. unfold static_double_list.traverse.
    destruct (begin_run hd (cleared hd h) Hhd ltac:(eauto)) as (lh & Hlh & Hbegin).
    rewrite Hprep in Hlh, Hbegin. rewrite Hhead in Hlh. simplify_eq.
    run_with Hbegin. unfold static_double_list.end_.
    change ((mret hd ≫= λ e, static_double_list.iterate fuel e (next_ (Links hd hd)))
              (cleared hd h))
      with (static_double_list.iterate fuel hd hd (cleared hd h)).
    destruct fuel; simpl; by rewrite bool_decide_eq_true_2.
Qed.

Lemma X10_clear_resets_head_only_witness :
  ∃ h', static_double_list.clear 1 {[ 1 := Links 2 2; 2 := Links 1 1 ]} = Done () h' ∧
        h' !! 1 = Some (Links 1 1) ∧
        (∀ m, m ≠ 1 → h' !! m = ({[ 1 := Links 2 2; 2 := Links 1 1 ]} : heap) !! m) ∧
        static_double_list.empty 1 h' = Done true h' ∧
        (∀ fuel, static_double_list.traverse fuel 1 h' = Done (Some []) h').
Proof. apply X10_clear_resets_head_only; [done|by eexists]. Defined.

(** X11. Life cycle of a dynamic list: construct it, [link] an
    unlinked node, [unlink] the node, destroy the list. In both
    builds every step finishes, the destructor's assertion holds, and
    the memory is the one the constructor left. *)
Theorem X11_dynamic_list_round_trip checked hd node h :
  hd ≠ nullptr → is_Some (h !! hd) →
  node ≠ nullptr → node ≠ hd → h !! node = Some (Links nullptr nullptr) →
  double_list.constructor hd h = Done () (cleared hd h) ∧
  (double_list.constructor hd;;
   double_list.link checked hd node;;
   unlink checked node;;
   double_list.destructor checked hd) h = Done () (cleared hd h).
Proof.
  intros Hhd Halloc Hnode Hne Hl.
  pose proof (double_list_clear_run hd h Hhd Halloc) as Hctor.
  split; [done|]. unfold double_list.constructor. run_with Hctor.
  pose proof (lookup_cleared_head hd h Halloc) as Hhead.
  assert (cleared hd h !! node = Some (Links nullptr nullptr)) as Hl'
    by by rewrite lookup_cleared_ne.
  assert (double_list.link checked hd node (cleared hd h) =
          Done () (inserted node hd hd (cleared hd h))) as Hlink.
  { unfold double_list.link, double_list.tail, static_double_list.tail.
    run_with (previous_Done _ _ _ Hhd Hhead). cbn [previous_].
    apply (insert_after_run checked node hd _ (Links hd hd)); try done.
    all: cbn [next_]; eauto. }
  run_with Hlink.
  assert (unlink checked node (inserted node hd hd (cleared hd h)) =
          Done () (cleared hd h)) as Hunlink.
  { rewrite (unlink_run_linked checked node _ hd hd); try done.
    - f_equal. by apply (unlinked_inserted node hd hd _ (Links hd hd) (Links hd hd)).
    - apply lookup_inserted_node; [done|done|eauto].
    - rewrite inserted_is_Some. eauto.
    - rewrite inserted_is_Some. eauto. }
  run_with Hunlink. unfold double_list.destructor.
  run_with (double_list_empty_run hd _ _ Hhd Hhead). cbn [next_ previous_].
  rewrite (bool_decide_eq_true_2 (hd = hd)) by done. apply assert_true.
Qed.

Lemma X11_dynamic_list_round_trip_witness :
  double_list.constructor 1 {[ 1 := Links 7 9; 2 := Links 0 0 ]}
  = Done () (cleared 1 {[ 1 := Links 7 9; 2 := Links 0 0 ]}) ∧
  (double_list.constructor 1;;
   double_list.link true 1 2;;
   unlink true 2;;
   double_list.destructor true 1) {[ 1 := Links 7 9; 2 := Links 0 0 ]}
  = Done () (cleared 1 {[ 1 := Links 7 9; 2 := Links 0 0 ]}).
Proof.
  apply X11_dynamic_list_round_trip; [done|by eexists|done|done|reflexivity].
Defined.

(** X12. [link (n)] on a well-formed list writes to the head, to [n]
    and to the node that was last, and to nothing else: every other
    address of the memory, the nodes of other lists included, keeps
    its content. *)
Theorem X12_link_frame checked hd nodes h l n :
  layout hd nodes → wf hd nodes h l →
  n ∈ nodes → h !! n = Some (Links nullptr nullptr) →
  ∃ h', static_double_list.link checked hd n h = Done () h' ∧
        ∀ m, m ≠ hd → m ≠ n → m ≠ last_or hd l → h' !! m = h !! m.
Proof.
  intros Hlayout Hwf Hn Hnull.
  assert (n ∉ l) as Hnl.
  { intros Hin.
    destruct (wf_linked_lookup hd nodes Hlayout h l n Hwf Hin)
      as (p & s & Hl & Hp & Hs).
    rewrite Hl in Hnull. by simplify_eq. }
  eexists. split; [by apply (wf_link_run hd nodes Hlayout)|].
  intros m Hmh Hmn Hmt. rewrite lookup_inserted_other by done. lookup_wr.
  rewrite !decide_False by done. by apply lookup_prepared_ne.
Qed.

Lemma X12_link_frame_witness :
  ∃ h', static_double_list.link true 1 4
          {[ 1 := Links 3 2; 2 := Links 1 3; 3 := Links 2 1; 4 := Links 0 0;
             5 := Links 6 6; 6 := Links 5 5 ]} = Done () h' ∧
        ∀ m, m ≠ 1 → m ≠ 4 → m ≠ last_or 1 [2; 3] →
             h' !! m =
             ({[ 1 := Links 3 2; 2 := Links 1 3; 3 := Links 2 1; 4 := Links 0 0;
                 5 := Links 6 6; 6 := Links 5 5 ]} : heap) !! m.
Proof.
  apply (X12_link_frame true 1 [2; 3; 4] _ [2; 3] 4).
  - exact layout_1_234.
  - split.
    + intros x Hx. rewrite !elem_of_cons in Hx.
      destruct Hx as [->|[->|[->|[->|Hx]]]]; try (by eexists).
      by apply elem_of_nil in Hx.
    + intros x Hx. rewrite !elem_of_cons in Hx.
      destruct Hx as [->|[->|Hx]]; [by_decide|by_decide|by apply elem_of_nil in Hx].
    + by_decide.
    + intros x Hx Hxl. rewrite !elem_of_cons in Hx.
      destruct Hx as [->|[->|[->|Hx]]]; [| |done|by apply elem_of_nil in Hx];
        exfalso; apply Hxl; by_decide.
    + left. apply cycle_head. split; [reflexivity|].
      split; [reflexivity|]. split; [reflexivity|done].
  - by_decide.
  - reflexivity.
Defined.

(** X13. Unlinking a node of the program and linking it again moves
    it to the tail: the following iteration visits the other linked
    nodes in their former order and then the node. *)
Theorem X13_unlink_link_moves_to_tail checked hd nodes h l n fuel :
  layout hd nodes → wf hd nodes h l → n ∈ nodes →
  (length nodes ≤ fuel)%nat →
  ∃ h', (unlink checked n;;
         static_double_list.link checked hd n;;
         static_double_list.traverse fuel hd) h
        = Done (Some (filter (λ x, x ≠ n) l ++ [n])) h'.
Proof.
  intros Hlayout Hwf Hn Hfuel.
  destruct (wf_unlink hd nodes Hlayout checked h l n Hwf Hn) as (h1 & Hrun1 & Hwf1).
  destruct (wf_link hd nodes Hlayout checked h1 _ n Hwf1 Hn) as (h2 & Hrun2 & Hwf2).
  { rewrite list_elem_of_filter. intros [Hne _]. by apply Hne. }
  exists (prepared hd h2). run_with Hrun1. run_with Hrun2.
  apply (traverse_wf hd nodes Hlayout h2 _ fuel Hwf2).
  pose proof (wf_length hd nodes Hlayout h2 _ Hwf2). lia.
Qed.

Lemma X13_unlink_link_moves_to_tail_witness :
  ∃ h', (unlink true 2;;
         static_double_list.link true 1 2;;
         static_double_list.traverse 3 1)
          {[ 1 := Links 3 2; 2 := Links 1 3; 3 := Links 2 1; 4 := Links 0 0 ]}
        = Done (Some (filter (λ x, x ≠ 2) [2; 3] ++ [2])) h'.
Proof.
  apply (X13_unlink_link_moves_to_tail true 1 [2; 3; 4] _ [2; 3] 2 3).
  - exact layout_1_234.
  - apply (run_wf 1 [2; 3; 4] layout_1_234 true [OpLink 2; OpLink 3]);
      reflexivity.
  - by_decide.
  - simpl. lia.
Defined.

(** X14. On a head that is initialised (a pointer of the head is
    non-null), [double_list::link] and [static_double_list::link] do
    the same: the first-use test of the static list is the only
    difference between the two. *)
Theorem X14_dynamic_link_is_static_link checked hd node h lh :
  hd ≠ nullptr → h !! hd = Some lh →
  previous_ lh ≠ nullptr ∨ next_ lh ≠ nullptr →
  double_list.link checked hd node h =
  static_double_list.link checked hd node h.
Proof.
  intros Hhd Hlh Hinit. unfold static_double_list.link.
  rewrite prepare_run by eauto.
  assert (prepared hd h = h) as ->; [|done].
  unfold prepared. rewrite Hlh.
  assert (bool_decide (previous_ lh = nullptr) && bool_decide (next_ lh = nullptr)
          = false) as ->; [|done].
  apply andb_false_iff. rewrite !bool_decide_eq_false. tauto.
Qed.

Lemma X14_dynamic_link_is_static_link_witness :
  double_list.link true 1 3 {[ 1 := Links 2 2; 2 := Links 1 1; 3 := Links 0 0 ]} =
  static_double_list.link true 1 3 {[ 1 := Links 2 2; 2 := Links 1 1; 3 := Links 0 0 ]}.
Proof.
  apply (X14_dynamic_link_is_static_link true 1 3 _ (Links 2 2));
    [done|reflexivity|by left].
Defined.

(** X15. [empty ()] after any sequence of operations that never links
    a linked node: it changes nothing and returns true exactly when
    no node of the program is linked. *)
Theorem X15_empty_iff_no_node_linked checked hd nodes ops h :
  layout hd nodes →
  forallb (on_nodes nodes) ops = true →
  respects_contract ops = true →
  run checked hd ops (zeroed hd nodes) = Done () h →
  ∃ e, static_double_list.empty hd h = Done e h ∧
       (e = true ↔ ∀ x, x ∈ nodes → is_linked h x = false).
Proof.
  intros Hlayout Hon Hok Hrun.
  unfold respects_contract in Hok. apply bool_decide_eq_true in Hok as [l Habs].
  pose proof (run_wf hd nodes Hlayout checked ops l h Hon Habs Hrun) as Hwf.
  exists (bool_decide (l = [])). split; [by apply (wf_empty hd nodes Hlayout)|].
  rewrite bool_decide_eq_true. split.
  - intros -> x Hx. apply not_true_is_false.
    rewrite (wf_is_linked hd nodes Hlayout h [] x Hwf Hx). apply not_elem_of_nil.
  - intros Hnone. destruct l as [|x l]; [done|exfalso].
    assert (x ∈ x :: l) as Hxl by apply list_elem_of_here.
    pose proof (wf_sub _ _ _ _ Hwf x Hxl) as Hx.
    apply (wf_is_linked hd nodes Hlayout h _ x Hwf Hx) in Hxl.
    rewrite (Hnone x Hx) in Hxl. done.
Qed.

Lemma X15_empty_iff_no_node_linked_witness :
  ∃ e, static_double_list.empty 1
         {[ 1 := Links 1 1; 2 := Links 0 0; 3 := Links 0 0; 4 := Links 0 0 ]}
       = Done e {[ 1 := Links 1 1; 2 := Links 0 0; 3 := Links 0 0; 4 := Links 0 0 ]} ∧
       (e = true ↔
        ∀ x, x ∈ [2; 3; 4] →
             is_linked {[ 1 := Links 1 1; 2 := Links 0 0; 3 := Links 0 0; 4 := Links 0 0 ]} x
             = false).
Proof.
  apply (X15_empty_iff_no_node_linked true 1 [2; 3; 4] [OpLink 2; OpUnlink 2]).
  - exact layout_1_234.
  - reflexivity.
  - reflexivity.
  - reflexivity.
Defined.

(** X16. Once initialised, a static list stays initialised: from a
    well-formed list whose head points into the ring, after any
    further sequence of operations that never links a linked node
    [uninitialized ()] returns false; unlinking the last node leaves
    the head pointing at itself, not null. *)
Theorem X16_initialised_list_stays_initialised checked hd nodes ops h l :
  layout hd nodes → wf hd nodes h l → cycle h (hd :: l) →
  forallb (on_nodes nodes) ops = true →
  is_Some (abstract_run l ops) →
  ∃ h', run checked hd ops h = Done () h' ∧
        static_double_list.uninitialized hd h' = Done false h' ∧
        (static_double_list.empty hd h' = Done true h' →
         h' !! hd = Some (Links hd hd)).
Proof.
  intros Hlayout Hwf Hring Hon [l' Habs].
  pose proof (layout_head _ _ Hlayout) as Hhd.
  destruct (run_keeps_cycle hd nodes Hlayout checked ops h l l' Hwf Hring Hon Habs)
    as (h' & Hrun & Hwf' & Hring').
  exists h'. split; [done|].
  apply cycle_head in Hring' as [Hhead _].
  assert (last_or hd l' ≠ nullptr) as Hlast.
  { apply (wf_elem_nonnull hd nodes Hlayout h' l' _ Hwf').
    destruct (last_or_cases hd l') as [->|?];
      [apply list_elem_of_here|by apply list_elem_of_further]. }
  split.
  - rewrite (uninitialized_run hd h' _ Hhd Hhead). cbn [previous_ next_].
    by rewrite (bool_decide_eq_false_2 (last_or hd l' = nullptr)) by done.
  - rewrite (wf_empty hd nodes Hlayout h' l' Hwf'). intros [= Hempty].
    apply bool_decide_eq_true in Hempty. by subst l'.
Qed.

Lemma X16_initialised_list_stays_initialised_witness :
  ∃ h', run true 1 [OpUnlink 2; OpEmpty]
          {[ 1 := Links 2 2; 2 := Links 1 1; 3 := Links 0 0; 4 := Links 0 0 ]}
        = Done () h' ∧
        static_double_list.uninitialized 1 h' = Done false h' ∧
        (static_double_list.empty 1 h' = Done true h' →
         h' !! 1 = Some (Links 1 1)).
Proof.
  apply (X16_initialised_list_stays_initialised true 1 [2; 3; 4] _ _ [2]).
  - exact layout_1_234.
  - apply (run_wf 1 [2; 3; 4] layout_1_234 true [OpLink 2]); reflexivity.
  - apply cycle_head. split; [reflexivity|]. split; [reflexivity|done].
  - reflexivity.
  - by eexists.
Defined.
